(** * A shallow embedding of the [queue] package (Indivizo/sqs)

    The package is a thin client of Amazon SQS: [queue.go] provisions a
    queue together with its dead-letter queue and wraps send, receive and
    delete; [queueProcessor.go] runs the poll / decode / handle / delete
    loop.

    Go strings are byte sequences and are modelled by [string] (a list of
    8-bit [ascii]).  A Go pointer [*T] that the code may find nil is an
    [option T]; dereferencing [None] is a run-time panic.  A Go [error]
    value is modelled by its message, and a possibly-nil [error] by
    [option error].  The remote service, the handler and everything else
    outside the package live in an abstract environment [Env] that the SDK
    operations transform; every call that leaves the package is recorded,
    with its result, in a trace so that statements about which calls were
    made, and in which order, can be written down. *)

From Stdlib Require Import ZArith Lia List Ascii String.
From Stdlib Require Import DecimalString DecimalZ DecimalPos DecimalFacts.
From stdpp Require Import base option gmap strings list.

Open Scope string_scope.
Open Scope list_scope.
Open Scope Z_scope.

(** ** Go values *)

Definition error := string.

(** ** The parts of the AWS SDK the package touches

    Request fields are always built with [aws.String(..)] / [aws.Int64(..)]
    by this package, which yields non-nil pointers; they are modelled by
    plain values.  Response fields keep their pointer types.  Only the
    fields the package reads or writes are kept. *)

Module aws.
Record Config := { Region : string }.
End aws.

Module sqs.

Record Message := {
  MessageId : option string;
  ReceiptHandle : option string;
  Body : option string
}.

Record CreateQueueInput := {
  QueueName : string;
  Attributes : gmap string (option string)
}.

Record CreateQueueOutput := { QueueUrl : option string }.

Record GetQueueAttributesInput := {
  GetQueueAttributes_QueueUrl : string;
  AttributeNames : list (option string)
}.

Record GetQueueAttributesOutput := {
  GetQueueAttributes_Attributes : gmap string (option string)
}.

Record SendMessageInput := {
  MessageBody : string;
  SendMessage_QueueUrl : string
}.

Record SendMessageOutput := { SendMessage_MessageId : option string }.

Record ReceiveMessageInput := {
  ReceiveMessage_QueueUrl : string;
  MaxNumberOfMessages : Z;
  VisibilityTimeout : Z;
  WaitTimeSeconds : Z
}.

Record ReceiveMessageOutput := { Messages : list (option Message) }.

Record DeleteMessageInput := {
  DeleteMessage_QueueUrl : string;
  DeleteMessage_ReceiptHandle : string
}.

Record DeleteMessageOutput := { }.

(** The client [*sqs.SQS].  Each operation returns its output struct
    (the SDK allocates it before sending, so it is never nil) and a
    possibly-nil error, and changes the environment. *)
Record SQS (Env : Type) := {
  CreateQueue :
    CreateQueueInput -> Env -> (CreateQueueOutput * option error) * Env;
  GetQueueAttributes :
    GetQueueAttributesInput -> Env ->
    (GetQueueAttributesOutput * option error) * Env;
  SendMessage :
    SendMessageInput -> Env -> (SendMessageOutput * option error) * Env;
  ReceiveMessage :
    ReceiveMessageInput -> Env ->
    (ReceiveMessageOutput * option error) * Env;
  DeleteMessage :
    DeleteMessageInput -> Env -> (DeleteMessageOutput * option error) * Env
}.
Arguments CreateQueue {Env}.
Arguments GetQueueAttributes {Env}.
Arguments SendMessage {Env}.
Arguments ReceiveMessage {Env}.
Arguments DeleteMessage {Env}.

End sqs.

(** ** Logging (logrus)

    Log fields are elided; evaluating a field expression that dereferences
    a pointer is kept as an explicit step of the code below. *)

Inductive Level := InfoLevel | WarningLevel | ErrorLevel.

Record LogEntry := { level : Level; text : string }.

(** ** Calls leaving the package, with their results *)

Inductive Event :=
| EvCreateQueue (i : sqs.CreateQueueInput)
                (o : sqs.CreateQueueOutput) (err : option error)
| EvGetQueueAttributes (i : sqs.GetQueueAttributesInput)
                       (o : sqs.GetQueueAttributesOutput) (err : option error)
| EvSendMessage (i : sqs.SendMessageInput)
                (o : sqs.SendMessageOutput) (err : option error)
| EvReceiveMessage (i : sqs.ReceiveMessageInput)
                   (o : sqs.ReceiveMessageOutput) (err : option error)
| EvDeleteMessage (i : sqs.DeleteMessageInput)
                  (o : sqs.DeleteMessageOutput) (err : option error)
| EvDecode (body : string) (err : option error)
| EvHandle (err : option error).

(** ** The monad of Go code: state, trace, log and panics *)

Section GoMonad.

Context {Env : Type}.

Record World := {
  env : Env;
  trace : list Event;
  logs : list LogEntry
}.

Inductive Result (A : Type) :=
| Done (a : A) (w : World)
| Panicked (w : World).
Arguments Done {A}.
Arguments Panicked {A}.

Definition Go (A : Type) := World -> Result A.

Definition ret {A} (a : A) : Go A := fun w => Done a w.

Definition bind {A B} (m : Go A) (k : A -> Go B) : Go B :=
  fun w => match m w with
           | Done a w' => k a w'
           | Panicked w' => Panicked w'
           end.

(** [*p] *)
Definition deref {A} (p : option A) : Go A :=
  fun w => match p with
           | Some a => Done a w
           | None => Panicked w
           end.

Definition log (l : Level) (msg : string) : Go unit :=
  fun w => Done tt {| env := env w; trace := trace w;
                      logs := logs w ++ [{| level := l; text := msg |}] |}.

(** An external operation [op] run on the environment, recorded as [ev]. *)
Definition call {I O} (op : I -> Env -> (O * option error) * Env)
           (ev : I -> O -> option error -> Event) (i : I)
  : Go (O * option error) :=
  fun w => let '((o, err), e') := op i (env w) in
           Done (o, err)
                {| env := e'; trace := trace w ++ [ev i o err];
                   logs := logs w |}.

Definition world_of {A} (r : Result A) : World :=
  match r with Done _ w => w | Panicked w => w end.

Definition panicked {A} (r : Result A) : bool :=
  match r with Done _ _ => false | Panicked _ => true end.

End GoMonad.

Arguments World : clear implicits.
Arguments Result : clear implicits.
Arguments Go : clear implicits.
Arguments Done {Env A}.
Arguments Panicked {Env A}.

Declare Scope go_scope.
Delimit Scope go_scope with go.
Notation "'let*' p ':=' m 'in' k" :=
  (bind m (fun x => match x with p => k end))
  (at level 10, p pattern, m at level 100, k at level 200) : go_scope.
Notation "m ;;; k" := (bind m (fun _ => k))
  (at level 100, right associativity) : go_scope.
Open Scope go_scope.


(** ** UTF-8 (Go's [unicode/utf8]), on byte values in [Z] *)

Module utf8.

Definition RuneError : Z := 0xFFFD.
Definition RuneSelf : Z := 0x80.
Definition MaxRune : Z := 0x10FFFF.

Definition byte (c : ascii) : Z := Z.of_N (N_of_ascii c).
Definition chr (b : Z) : ascii := ascii_of_N (Z.to_N b).

(** [byte(x)]: conversion of an integer to [uint8] keeps the low 8 bits. *)
Definition trunc8 (x : Z) : Z := Z.land x 0xFF.

Definition maskx : Z := 0x3F.
Definition mask2 : Z := 0x1F.
Definition mask3 : Z := 0x0F.
Definition mask4 : Z := 0x07.
Definition tx : Z := 0x80.
Definition t2 : Z := 0xC0.
Definition t3 : Z := 0xE0.
Definition t4 : Z := 0xF0.
Definition locb : Z := 0x80.
Definition hicb : Z := 0xBF.

(** The table [first]: information about the first byte of a sequence.
    The low 3 bits are the size, the high 4 bits index [acceptRanges]. *)
Definition xx : Z := 0xF1.
Definition as_ : Z := 0xF0.
Definition s1 : Z := 0x02.
Definition s2 : Z := 0x13.
Definition s3 : Z := 0x03.
Definition s4 : Z := 0x23.
Definition s5 : Z := 0x34.
Definition s6 : Z := 0x04.
Definition s7 : Z := 0x44.

Definition first (b : Z) : Z :=
  if b <? 0x80 then as_
  else if b <? 0xC2 then xx
  else if b <? 0xE0 then s1
  else if b =? 0xE0 then s2
  else if b <? 0xED then s3
  else if b =? 0xED then s4
  else if b <? 0xF0 then s3
  else if b =? 0xF0 then s5
  else if b <? 0xF4 then s6
  else if b =? 0xF4 then s7
  else xx.

(** [acceptRanges]: the range of valid second bytes, as [(lo, hi)]. *)
Definition acceptRanges (i : Z) : Z * Z :=
  if i =? 0 then (locb, hicb)
  else if i =? 1 then (0xA0, hicb)
  else if i =? 2 then (locb, 0x9F)
  else if i =? 3 then (0x90, hicb)
  else if i =? 4 then (locb, 0x8F)
  else (0, 0).

Definition DecodeRuneInString (s : string) : Z * nat :=
  match s with
  | EmptyString => (RuneError, 0%nat)
  | String c0 t0 =>
    let b0 := byte c0 in
    let x := first b0 in
    if as_ <=? x then
      (if x =? xx then RuneError else b0, 1%nat)
    else
      let sz := Z.to_nat (Z.land x 7) in
      let accept := acceptRanges (Z.shiftr x 4) in
      if (String.length s <? sz)%nat then (RuneError, 1%nat)
      else
        match t0 with
        | EmptyString => (RuneError, 1%nat)
        | String c1 t1 =>
          let b1 := byte c1 in
          if (b1 <? fst accept) || (snd accept <? b1) then (RuneError, 1%nat)
          else if (sz <=? 2)%nat then
            (Z.lor (Z.shiftl (Z.land b0 mask2) 6) (Z.land b1 maskx), 2%nat)
          else
            match t1 with
            | EmptyString => (RuneError, 1%nat)
            | String c2 t2 =>
              let b2 := byte c2 in
              if (b2 <? locb) || (hicb <? b2) then (RuneError, 1%nat)
              else if (sz <=? 3)%nat then
                (Z.lor (Z.lor (Z.shiftl (Z.land b0 mask3) 12)
                              (Z.shiftl (Z.land b1 maskx) 6))
                       (Z.land b2 maskx), 3%nat)
              else
                match t2 with
                | EmptyString => (RuneError, 1%nat)
                | String c3 _ =>
                  let b3 := byte c3 in
                  if (b3 <? locb) || (hicb <? b3) then (RuneError, 1%nat)
                  else
                    (Z.lor (Z.lor (Z.lor (Z.shiftl (Z.land b0 mask4) 18)
                                         (Z.shiftl (Z.land b1 maskx) 12))
                                  (Z.shiftl (Z.land b2 maskx) 6))
                           (Z.land b3 maskx), 4%nat)
                end
            end
        end
  end.

Definition encode3 (r : Z) : string :=
  String (chr (Z.lor t3 (trunc8 (Z.shiftr r 12))))
    (String (chr (Z.lor tx (Z.land (trunc8 (Z.shiftr r 6)) maskx)))
       (String (chr (Z.lor tx (Z.land (trunc8 r) maskx))) EmptyString)).

(** [EncodeRune], returning the bytes written. *)
Definition EncodeRune (r : Z) : string :=
  if (0 <=? r) && (r <=? 0x7F) then String (chr (trunc8 r)) EmptyString
  else if (0 <=? r) && (r <=? 0x7FF) then
    String (chr (Z.lor t2 (trunc8 (Z.shiftr r 6))))
      (String (chr (Z.lor tx (Z.land (trunc8 r) maskx))) EmptyString)
  else if (r <? 0) || (MaxRune <? r) || ((0xD800 <=? r) && (r <=? 0xDFFF))
  then encode3 RuneError
  else if r <=? 0xFFFF then encode3 r
  else
    String (chr (Z.lor t4 (trunc8 (Z.shiftr r 18))))
      (String (chr (Z.lor tx (Z.land (trunc8 (Z.shiftr r 12)) maskx)))
         (String (chr (Z.lor tx (Z.land (trunc8 (Z.shiftr r 6)) maskx)))
            (String (chr (Z.lor tx (Z.land (trunc8 r) maskx))) EmptyString))).

Fixpoint take (n : nat) (s : string) : string :=
  match n, s with
  | S n, String c t => String c (take n t)
  | _, _ => EmptyString
  end.

(** [ValidString]: the string is a sequence of well-formed encodings,
    that is, decoding never meets an invalid byte. *)
Fixpoint ValidString (s : string) : bool :=
  match s with
  | EmptyString => true
  | String c t =>
    if byte c <? RuneSelf then ValidString t
    else
      let '(r, size) := DecodeRuneInString s in
      if (r =? RuneError) && (size =? 1)%nat then false
      else
        match size, t with
        | 2%nat, String _ t1 => ValidString t1
        | 3%nat, String _ (String _ t2) => ValidString t2
        | 4%nat, String _ (String _ (String _ t3)) => ValidString t3
        | _, _ => false
        end
  end.

End utf8.

(** ** Decimal integers (Go's [strconv], base 10) *)

Module strconv.

Definition FormatInt (n : Z) : string :=
  DecimalString.NilEmpty.string_of_int (Z.to_int n).

Definition isDigit (c : ascii) : bool :=
  let b := utf8.byte c in (48 <=? b) && (b <=? 57).

Fixpoint allDigits (s : string) : bool :=
  match s with
  | EmptyString => true
  | String c t => isDigit c && allDigits t
  end.

Definition minInt64 : Z := - 2 ^ 63.
Definition maxInt64 : Z := 2 ^ 63 - 1.

(** [ParseInt(s, 10, 64)] on a literal with an optional minus sign;
    [None] stands for a syntax or range error. *)
Definition ParseInt (s : string) : option Z :=
  let digits := match s with
                | String c t => if utf8.byte c =? 0x2D then t else s
                | EmptyString => s
                end in
  match digits with
  | EmptyString => None
  | String _ _ =>
    if allDigits digits then
      match DecimalString.NilEmpty.int_of_string s with
      | Some d =>
        let n := Z.of_int d in
        if (minInt64 <=? n) && (n <=? maxInt64) then Some n else None
      | None => None
      end
    else None
  end.

End strconv.

(** ** The data of the package *)

Definition sqsRegion : string := "eu-central-1".

Definition deadLetterQueueSuffix : string := "-deadMessages".

Definition MaxReceiveCountBeforeDead : Z := 5.

Record Queue := {
  Name : string;
  URL : string;
  DeadLetterQueueURL : string
}.

(** [MaxReceiveCount] is a Go [int] (64 bits); the values of the type are
    those for which [int_range] holds. *)
Record RedrivePolicy := {
  MaxReceiveCount : Z;
  DeadLetterTargetArn : string
}.

Definition int_range (n : Z) : Prop :=
  strconv.minInt64 <= n <= strconv.maxInt64.

Inductive result (A : Type) :=
| Ok (a : A)
| Err (e : error).
Arguments Ok {A}.
Arguments Err {A}.

(** ** JSON (Go's [encoding/json]) for strings and for [RedrivePolicy] *)

Module json.

Definition dquote : ascii := "034"%char.
Definition backslash : ascii := "\"%char.

Definition hex (n : Z) : ascii :=
  match String.get (Z.to_nat n) "0123456789abcdef" with
  | Some c => c
  | None => "0"%char
  end.

(** [htmlSafeSet]: the ASCII bytes written as they are. *)
Definition htmlSafeSet (b : Z) : bool :=
  (0x20 <=? b) && (b <? 0x80) &&
  negb ((b =? 0x22) || (b =? 0x26) || (b =? 0x3C) || (b =? 0x3E)
        || (b =? 0x5C)).

(** The escape written for an ASCII byte outside [htmlSafeSet].  (Go
    1.22 and later write the two-character forms for 0x08 and 0x0C as
    well; [unquote] below reads both spellings back to the same byte.) *)
Definition escape (b : Z) : string :=
  if (b =? 0x5C) || (b =? 0x22) then
    String backslash (String (utf8.chr b) EmptyString)
  else if b =? 0x0A then String backslash "n"
  else if b =? 0x0D then String backslash "r"
  else if b =? 0x09 then String backslash "t"
  else
    String backslash
      ("u00" +:+ String (hex (Z.shiftr b 4))
                   (String (hex (Z.land b 0xF)) EmptyString)).

(** The loop of [encodeState.string] with [escapeHTML] set, as
    [json.Marshal] runs it; the opening and closing quotes are added by
    [encodeString]. *)
Fixpoint encodeString_loop (s : string) : string :=
  match s with
  | EmptyString => EmptyString
  | String c t =>
    let b := utf8.byte c in
    if b <? utf8.RuneSelf then
      (if htmlSafeSet b then String c EmptyString else escape b)
        +:+ encodeString_loop t
    else
      let '(r, size) := utf8.DecodeRuneInString s in
      if (r =? utf8.RuneError) && (size =? 1)%nat then
        String backslash "ufffd" +:+ encodeString_loop t
      else
        let chunk :=
          if (r =? 0x2028) || (r =? 0x2029) then
            String backslash
              ("u202" +:+ String (hex (Z.land r 0xF)) EmptyString)
          else utf8.take size s in
        chunk +:+
        match size, t with
        | 2%nat, String _ t1 => encodeString_loop t1
        | 3%nat, String _ (String _ t2) => encodeString_loop t2
        | 4%nat, String _ (String _ (String _ t3)) => encodeString_loop t3
        | _, _ => encodeString_loop t
        end
  end.

Definition encodeString (s : string) : string :=
  String dquote (encodeString_loop s +:+ String dquote EmptyString).

(** [json.Marshal] of a [RedrivePolicy]: the fields in declaration
    order under their [json:".."] names.  Marshalling a struct of an
    [int] and a [string] cannot fail. *)
Definition Marshal_RedrivePolicy (p : RedrivePolicy)
  : string * option error :=
  ("{" +:+ encodeString "maxReceiveCount" +:+ ":"
       +:+ strconv.FormatInt (MaxReceiveCount p) +:+ ","
       +:+ encodeString "deadLetterTargetArn" +:+ ":"
       +:+ encodeString (DeadLetterTargetArn p) +:+ "}",
   None).

(** *** Decoding

    [json.Unmarshal] into a [RedrivePolicy], for the JSON texts whose
    member values are strings and integer literals; any other text,
    well-formed or not, is answered by an error.  What the destination
    holds after an error is not modelled. *)

Definition isSpace (c : ascii) : bool :=
  let b := utf8.byte c in
  (b =? 0x20) || (b =? 0x09) || (b =? 0x0D) || (b =? 0x0A).

Fixpoint skipSpace (s : string) : string :=
  match s with
  | EmptyString => s
  | String c t => if isSpace c then skipSpace t else s
  end.

Definition unhex (c : ascii) : option Z :=
  let b := utf8.byte c in
  if (0x30 <=? b) && (b <=? 0x39) then Some (b - 0x30)
  else if (0x61 <=? b) && (b <=? 0x66) then Some (b - 0x61 + 10)
  else if (0x41 <=? b) && (b <=? 0x46) then Some (b - 0x41 + 10)
  else None.

(** [getu4]: the rune of a [\uXXXX] escape at the head of [s], or -1. *)
Definition getu4 (s : string) : Z :=
  match s with
  | String b (String u (String c1 (String c2 (String c3 (String c4 _))))) =>
    if (utf8.byte b =? 0x5C) && (utf8.byte u =? 0x75) then
      match unhex c1, unhex c2, unhex c3, unhex c4 with
      | Some x1, Some x2, Some x3, Some x4 =>
        ((x1 * 16 + x2) * 16 + x3) * 16 + x4
      | _, _, _, _ => -1
      end
    else -1
  | _ => -1
  end.

(** [utf16.IsSurrogate] and [utf16.DecodeRune]. *)
Definition IsSurrogate (r : Z) : bool := (0xD800 <=? r) && (r <? 0xE000).

Definition utf16_DecodeRune (r1 r2 : Z) : Z :=
  if (0xD800 <=? r1) && (r1 <? 0xDC00) && (0xDC00 <=? r2) && (r2 <? 0xE000)
  then Z.lor (Z.shiftl (r1 - 0xD800) 10) (r2 - 0xDC00) + 0x10000
  else utf8.RuneError.

(** The scanner's view of a string literal: [s] starts after the opening
    quote; the result is the text up to the closing quote, escapes
    checked but not yet replaced, and the input after the quote. *)
Fixpoint scanString (s : string) : option (string * string) :=
  match s with
  | EmptyString => None
  | String c t =>
    let b := utf8.byte c in
    if b =? 0x22 then Some (EmptyString, t)
    else if b =? 0x5C then
      match t with
      | EmptyString => None
      | String e t1 =>
        let x := utf8.byte e in
        if (x =? 0x62) || (x =? 0x66) || (x =? 0x6E) || (x =? 0x72)
           || (x =? 0x74) || (x =? 0x5C) || (x =? 0x2F) || (x =? 0x22)
        then
          match scanString t1 with
          | Some (lit, rest) => Some (String c (String e lit), rest)
          | None => None
          end
        else if x =? 0x75 then
          match t1 with
          | String h1 (String h2 (String h3 (String h4 t5))) =>
            match unhex h1, unhex h2, unhex h3, unhex h4, scanString t5 with
            | Some _, Some _, Some _, Some _, Some (lit, rest) =>
              Some (String c (String e (String h1 (String h2
                      (String h3 (String h4 lit))))), rest)
            | _, _, _, _, _ => None
            end
          | _ => None
          end
        else None
      end
    else if b <? 0x20 then None
    else
      match scanString t with
      | Some (lit, rest) => Some (String c lit, rest)
      | None => None
      end
  end.

(** The loop of [unquoteBytes] on the text between the quotes. *)
Fixpoint unquote (s : string) : option string :=
  match s with
  | EmptyString => Some EmptyString
  | String c t =>
    let b := utf8.byte c in
    if b =? 0x5C then
      match t with
      | EmptyString => None
      | String e t1 =>
        let x := utf8.byte e in
        if (x =? 0x22) || (x =? 0x5C) || (x =? 0x2F) || (x =? 0x27) then
          option_map (String e) (unquote t1)
        else if x =? 0x62 then option_map (String (utf8.chr 0x08)) (unquote t1)
        else if x =? 0x66 then option_map (String (utf8.chr 0x0C)) (unquote t1)
        else if x =? 0x6E then option_map (String (utf8.chr 0x0A)) (unquote t1)
        else if x =? 0x72 then option_map (String (utf8.chr 0x0D)) (unquote t1)
        else if x =? 0x74 then option_map (String (utf8.chr 0x09)) (unquote t1)
        else if x =? 0x75 then
          match t1 with
          | String _ (String _ (String _ (String _ t5))) =>
            let rr := getu4 s in
            if rr <? 0 then None
            else if IsSurrogate rr then
              let dec := utf16_DecodeRune rr (getu4 t5) in
              if negb (dec =? utf8.RuneError) then
                match t5 with
                | String _ (String _ (String _ (String _ (String _
                    (String _ t11))))) =>
                  option_map (String.append (utf8.EncodeRune dec))
                             (unquote t11)
                | _ => None
                end
              else
                option_map (String.append (utf8.EncodeRune utf8.RuneError))
                           (unquote t5)
            else option_map (String.append (utf8.EncodeRune rr)) (unquote t5)
          | _ => None
          end
        else None
      end
    else if (b =? 0x22) || (b <? 0x20) then None
    else if b <? utf8.RuneSelf then option_map (String c) (unquote t)
    else
      let '(rr, size) := utf8.DecodeRuneInString s in
      option_map (String.append (utf8.EncodeRune rr))
        match size, t with
        | 2%nat, String _ t1 => unquote t1
        | 3%nat, String _ (String _ t2) => unquote t2
        | 4%nat, String _ (String _ (String _ t3)) => unquote t3
        | _, _ => unquote t
        end
  end.

Fixpoint spanDigits (s : string) : string * string :=
  match s with
  | EmptyString => (EmptyString, EmptyString)
  | String c t =>
    if strconv.isDigit c then
      let '(d, rest) := spanDigits t in (String c d, rest)
    else (EmptyString, s)
  end.

(** An integer literal at the head of [s]: an optional minus sign and
    digits without a leading zero, not followed by a fraction or an
    exponent (which an [int] field does not accept). *)
Definition scanInt (s : string) : option (string * string) :=
  let '(sign, s1) :=
    match s with
    | String c t => if utf8.byte c =? 0x2D then (String c EmptyString, t)
                    else (EmptyString, s)
    | EmptyString => (EmptyString, s)
    end in
  let '(digits, rest) := spanDigits s1 in
  match digits with
  | EmptyString => None
  | String d more =>
    if (utf8.byte d =? 0x30) && negb (String.eqb more EmptyString) then None
    else
      match rest with
      | String c _ =>
        let b := utf8.byte c in
        if (b =? 0x2E) || (b =? 0x65) || (b =? 0x45) then None
        else Some (sign +:+ digits, rest)
      | EmptyString => Some (sign +:+ digits, rest)
      end
  end.

Inductive value :=
| VString (s : string)
| VNumber (literal : string).

Definition scanValue (s : string) : option (value * string) :=
  match s with
  | EmptyString => None
  | String c t =>
    if utf8.byte c =? 0x22 then
      match scanString t with
      | Some (lit, rest) =>
        match unquote lit with
        | Some str => Some (VString str, rest)
        | None => None
        end
      | None => None
      end
    else
      match scanInt s with
      | Some (lit, rest) => Some (VNumber lit, rest)
      | None => None
      end
  end.

Definition lower (c : ascii) : ascii :=
  let b := utf8.byte c in
  if (0x41 <=? b) && (b <=? 0x5A) then utf8.chr (b + 0x20) else c.

Fixpoint equalFold (s t : string) : bool :=
  match s, t with
  | EmptyString, EmptyString => true
  | String a s', String b t' => Ascii.eqb (lower a) (lower b) && equalFold s' t'
  | _, _ => false
  end.

(** A member is stored in the field whose name matches its key, exactly
    or up to the case of ASCII letters; other members are skipped. *)
Definition setField (key : string) (v : value) (p : RedrivePolicy)
  : option RedrivePolicy :=
  if equalFold "maxReceiveCount" key then
    match v with
    | VNumber lit =>
      match strconv.ParseInt lit with
      | Some n => Some {| MaxReceiveCount := n;
                          DeadLetterTargetArn := DeadLetterTargetArn p |}
      | None => None
      end
    | VString _ => None
    end
  else if equalFold "deadLetterTargetArn" key then
    match v with
    | VString str => Some {| MaxReceiveCount := MaxReceiveCount p;
                             DeadLetterTargetArn := str |}
    | VNumber _ => None
    end
  else Some p.

(** The members of an object, from just after the opening brace or a
    comma up to the closing brace; [fuel] bounds the number of members. *)
Fixpoint members (fuel : nat) (s : string) (p : RedrivePolicy)
  : option (RedrivePolicy * string) :=
  match fuel with
  | O => None
  | S fuel =>
    match skipSpace s with
    | EmptyString => None
    | String q t =>
      if utf8.byte q =? 0x22 then
        match scanString t with
        | None => None
        | Some (rawkey, s1) =>
          match unquote rawkey, skipSpace s1 with
          | Some key, String colon s2 =>
            if utf8.byte colon =? 0x3A then
              match scanValue (skipSpace s2) with
              | None => None
              | Some (v, s3) =>
                match setField key v p, skipSpace s3 with
                | Some p', String d s4 =>
                  if utf8.byte d =? 0x2C then members fuel s4 p'
                  else if utf8.byte d =? 0x7D then Some (p', s4)
                  else None
                | _, _ => None
                end
              end
            else None
          | _, _ => None
          end
        end
      else None
    end
  end.

Definition Unmarshal_RedrivePolicy (data : string) (p : RedrivePolicy)
  : result RedrivePolicy :=
  match skipSpace data with
  | EmptyString => Err "unexpected end of JSON input"
  | String c t =>
    if utf8.byte c =? 0x7B then
      let object :=
        match skipSpace t with
        | EmptyString => None
        | String d rest =>
          if utf8.byte d =? 0x7D then Some (p, rest)
          else members (String.length t) t p
        end in
      match object with
      | Some (p', rest) =>
        match skipSpace rest with
        | EmptyString => Ok p'
        | String _ _ => Err "invalid character after top-level value"
        end
      | None => Err "cannot unmarshal into RedrivePolicy"
      end
    else Err "cannot unmarshal into RedrivePolicy"
  end.

End json.

(** ** queue.go *)

Section Package.

Context {Env : Type}.

(** [sqs.New(session.New(config))]: the client of the ambient session. *)
Variable sqs_New : aws.Config -> sqs.SQS Env.

(** The values behind [interface{}]: message payloads and decoding
    destinations, with [json.Marshal] and [json.NewDecoder(..).Decode]
    on them.  Decoding writes into the destination and may fail. *)
Context {Value : Type}.
Variable json_Marshal : Value -> string * option error.
Variable json_Decode : string -> Value -> Value * option error.

(** GetClient returns an SQS client with a live session. *)
Definition GetClient (queue : Queue) : sqs.SQS Env :=
  sqs_New {| aws.Region := sqsRegion |}.

(** GetAsAWSString returns the RedrivePolicy as a JSON string pointer. *)
Definition GetAsAWSString (policy : RedrivePolicy)
  : Go Env (option string * option error) :=
  let '(jsonBytes, err) := json.Marshal_RedrivePolicy policy in
  match err with
  | Some _ =>
    log ErrorLevel "Marshal the RedrivePolicy" ;;;
    ret (None, err)
  | None => ret (Some jsonBytes, err)
  end.

(** GetAttributesByQueueURL returns queue attributes by its URL. *)
Definition GetAttributesByQueueURL (queue : Queue) (url : string)
           (attributeNames : list (option string))
  : Go Env (sqs.GetQueueAttributesOutput * option error) :=
  let client := GetClient queue in
  let params := {| sqs.GetQueueAttributes_QueueUrl := url;
                   sqs.AttributeNames := attributeNames |} in
  let* (resp, err) :=
    call (sqs.GetQueueAttributes client) EvGetQueueAttributes params in
  match err with
  | Some _ =>
    log ErrorLevel "Getting queue attributes" ;;;
    ret (resp, err)
  | None => ret (resp, err)
  end.

(** Init creates the dead-letter queue, then the queue itself.  The
    receiver is updated in place; the updated value is returned next to
    the error. *)
Definition Init (queue : Queue) : Go Env (Queue * option error) :=
  let client := GetClient queue in
  let params :=
    {| sqs.QueueName := Name queue +:+ deadLetterQueueSuffix;
       sqs.Attributes := {[ "MessageRetentionPeriod" := Some "1209600" ]} |} in
  let* (resp, err) := call (sqs.CreateQueue client) EvCreateQueue params in
  match err with
  | Some _ =>
    log ErrorLevel "Createing the dead letter queue" ;;;
    ret (queue, err)
  | None =>
    let* url := deref (sqs.QueueUrl resp) in
    let queue := {| Name := Name queue; URL := URL queue;
                    DeadLetterQueueURL := url |} in
    log InfoLevel "Dead Letter Queue initialized" ;;;
    let queueArnAttributeName := "QueueArn" in
    let* (deadLetterQueueAttributes, err) :=
      GetAttributesByQueueURL queue (DeadLetterQueueURL queue)
                              [Some queueArnAttributeName] in
    match err with
    | Some _ => ret (queue, err)
    | None =>
      let* arn :=
        deref (mjoin (sqs.GetQueueAttributes_Attributes
                        deadLetterQueueAttributes
                        !! queueArnAttributeName)) in
      let redrivePolicy :=
        {| MaxReceiveCount := MaxReceiveCountBeforeDead;
           DeadLetterTargetArn := arn |} in
      let* (redrivePolicyString, err) := GetAsAWSString redrivePolicy in
      match err with
      | Some _ => ret (queue, err)
      | None =>
        let params :=
          {| sqs.QueueName := Name queue;
             sqs.Attributes :=
               {[ "RedrivePolicy" := redrivePolicyString;
                  "MessageRetentionPeriod" := Some "1209600" ]} |} in
        let* (resp, err) :=
          call (sqs.CreateQueue client) EvCreateQueue params in
        match err with
        | Some _ =>
          log ErrorLevel "Createing the queue" ;;;
          ret (queue, err)
        | None =>
          let* url := deref (sqs.QueueUrl resp) in
          let queue := {| Name := Name queue; URL := url;
                          DeadLetterQueueURL := DeadLetterQueueURL queue |} in
          log InfoLevel "Queue initialized" ;;;
          ret (queue, err)
        end
      end
    end
  end.

(** New returns a prepared SQS queue: a pointer to the queue, never nil,
    and the error of [Init]. *)
Definition New (name : string) : Go Env (option Queue * option error) :=
  let queue := {| Name := name; URL := ""; DeadLetterQueueURL := "" |} in
  let* (queue, err) := Init queue in
  ret (Some queue, err).

(** SendMessage marshals the body and sends it to the queue. *)
Definition SendMessage (queue : Queue) (messageBody : Value)
  : Go Env (option sqs.SendMessageOutput * option error) :=
  let '(msg, err) := json_Marshal messageBody in
  match err with
  | Some _ =>
    log ErrorLevel "Marshal the message body for the queue" ;;;
    ret (None, err)
  | None =>
    let client := GetClient queue in
    let params := {| sqs.MessageBody := msg;
                     sqs.SendMessage_QueueUrl := URL queue |} in
    let* (resp, err) :=
      call (sqs.SendMessage client) EvSendMessage params in
    match err with
    | Some _ =>
      log ErrorLevel "Sending message to queue" ;;;
      ret (Some resp, err)
    | None =>
      log InfoLevel "Message sent to the queue" ;;;
      ret (Some resp, err)
    end
  end.

(** ReceiveMessage returns one message from the queue, or nil. *)
Definition ReceiveMessage (queue : Queue)
  : Go Env (option sqs.Message * option error) :=
  let client := GetClient queue in
  let params := {| sqs.ReceiveMessage_QueueUrl := URL queue;
                   sqs.MaxNumberOfMessages := 1;
                   sqs.VisibilityTimeout := 600;
                   sqs.WaitTimeSeconds := 20 |} in
  let* (resp, err) :=
    call (sqs.ReceiveMessage client) EvReceiveMessage params in
  match err with
  | Some _ =>
    log ErrorLevel "Receiving message from queue" ;;;
    ret (None, err)
  | None =>
    if (length (sqs.Messages resp) <? 1)%nat then ret (None, err)
    else
      let* message := deref (sqs.Messages resp !! 0%nat) in
      ret (message, err)
  end.

(** DeleteMessageByReceiptHandle removes a message by its receipt
    handle. *)
Definition DeleteMessageByReceiptHandle (queue : Queue)
           (receiptHandle : option string)
  : Go Env (option sqs.DeleteMessageOutput * option error) :=
  let client := GetClient queue in
  let* handle := deref receiptHandle in
  let params := {| sqs.DeleteMessage_QueueUrl := URL queue;
                   sqs.DeleteMessage_ReceiptHandle := handle |} in
  let* (resp, err) :=
    call (sqs.DeleteMessage client) EvDeleteMessage params in
  ret (Some resp, err).

(** DeleteMessage removes a message from the queue. *)
Definition DeleteMessage (queue : Queue) (message : option sqs.Message)
  : Go Env (option sqs.DeleteMessageOutput * option error) :=
  let* m := deref message in
  let* (resp, err) :=
    DeleteMessageByReceiptHandle queue (sqs.ReceiptHandle m) in
  match err with
  | Some _ =>
    log ErrorLevel "Deleting message from queue" ;;;
    ret (resp, err)
  | None =>
    log InfoLevel "Message deleted from queue" ;;;
    ret (resp, err)
  end.

(** ** queueProcessor.go *)

(** UnmarshalMessageBody decodes the body of the message into [v]. *)
Definition UnmarshalMessageBody (message : option sqs.Message) (v : Value)
  : Go Env (Value * option error) :=
  let* m := deref message in
  let* body := deref (sqs.Body m) in
  let* (v, err) :=
    call (fun b e => (json_Decode b v, e))
         (fun b _ err => EvDecode b err) body in
  match err with
  | Some _ =>
    let* _ := deref (sqs.MessageId m) in
    let* _ := deref (sqs.Body m) in
    log ErrorLevel "Unmarshal messageBody" ;;;
    ret (v, err)
  | None => ret (v, err)
  end.

(** A Processor binds a queue to a handler; both are taken to be set
    (a nil queue or a nil handler makes [Process] panic before, or at,
    its first use).  In Go the handler receives a copy of the processor
    and a pointer to the destination value; of the copy, the queue is
    all the handler does not have already, so the handler is given the
    queue.  It may change the value and the environment, and returns an
    error or nil; what a handler would write through the queue pointer
    is not modelled. *)
Record Processor := {
  Processor_Queue : Queue;
  HandleMessageBody :
    Queue -> Value -> Env -> (Value * option error) * Env
}.

(** One turn of the [for] loop of [Process]; every path through the
    body ends the turn, either at a [continue] or at the end of the
    body, and there is neither [break] nor [return]. *)
Definition iteration (processor : Processor) (body : Value)
  : Go Env Value :=
  log InfoLevel "Polling queue" ;;;
  let* (message, err) := ReceiveMessage (Processor_Queue processor) in
  match err, message with
  | Some _, _ | None, None => ret body
  | None, Some _ =>
    let* (body, err) := UnmarshalMessageBody message body in
    match err with
    | Some _ =>
      log WarningLevel "Error unmarshalling message" ;;;
      ret body
    | None =>
      let* (body, err) :=
        call (HandleMessageBody processor (Processor_Queue processor))
             (fun _ _ err => EvHandle err) body in
      match err with
      | Some _ =>
        log WarningLevel "Error processing message" ;;;
        ret body
      | None =>
        let* (_, err) :=
          DeleteMessage (Processor_Queue processor) message in
        match err with
        | Some _ =>
          log WarningLevel "Error deleting queue message" ;;;
          ret body
        | None => ret body
        end
      end
    end
  end.

(** The first [n] turns of the loop. *)
Fixpoint loop (n : nat) (processor : Processor) (body : Value)
  : Go Env Value :=
  match n with
  | O => ret body
  | S n =>
    let* body := iteration processor body in
    loop n processor body
  end.

(** Process handles incoming messages; the Go loop has no exit, and
    [Process n] is its run up to the end of turn [n]. *)
Definition Process (n : nat) (processor : Processor) (body : Value)
  : Go Env Value :=
  log InfoLevel "Processing queue started" ;;;
  loop n processor body.

End Package.

Arguments Processor : clear implicits.
Arguments Build_Processor {Env Value}.

(** ** A small simulated service

    A scripted environment on which the package can be run: queue
    creation is refused for the names in [refused], [ReceiveMessage]
    answers from a script, deleting the handle ["stale"] fails, and the
    handler fails as long as [handlerFailures] is positive.  Payloads are
    strings; a body decodes when it starts with an opening brace. *)

Module Sim.

Inductive Delivery :=
| ReceiveFails (e : error)
| Nothing
| Deliver (id handle body : string).

Record State := {
  refused : list string;
  created : list string;
  script : list Delivery;
  deleted : list string;
  handlerFailures : nat
}.

Definition queueUrl (name : string) : string := "https://sqs/" +:+ name.
Definition queueArn (url : string) : string := "arn:" +:+ url.

Definition CreateQueue (i : sqs.CreateQueueInput) (st : State)
  : (sqs.CreateQueueOutput * option error) * State :=
  if bool_decide (sqs.QueueName i ∈ refused st) then
    (({| sqs.QueueUrl := None |}, Some "AccessDenied"), st)
  else
    (({| sqs.QueueUrl := Some (queueUrl (sqs.QueueName i)) |}, None),
     {| refused := refused st;
        created := created st ++ [sqs.QueueName i];
        script := script st; deleted := deleted st;
        handlerFailures := handlerFailures st |}).

Definition GetQueueAttributes (i : sqs.GetQueueAttributesInput) (st : State)
  : (sqs.GetQueueAttributesOutput * option error) * State :=
  (({| sqs.GetQueueAttributes_Attributes :=
         {[ "QueueArn" :=
              Some (queueArn (sqs.GetQueueAttributes_QueueUrl i)) ]} |},
    None), st).

Definition SendMessage (i : sqs.SendMessageInput) (st : State)
  : (sqs.SendMessageOutput * option error) * State :=
  if String.eqb (sqs.SendMessage_QueueUrl i) "" then
    (({| sqs.SendMessage_MessageId := None |}, Some "NonExistentQueue"), st)
  else
    (({| sqs.SendMessage_MessageId := Some "m-1" |}, None), st).

Definition ReceiveMessage (i : sqs.ReceiveMessageInput) (st : State)
  : (sqs.ReceiveMessageOutput * option error) * State :=
  let st' := {| refused := refused st; created := created st;
                script := tail (script st); deleted := deleted st;
                handlerFailures := handlerFailures st |} in
  match script st with
  | [] => (({| sqs.Messages := [] |}, None), st)
  | ReceiveFails e :: _ => (({| sqs.Messages := [] |}, Some e), st')
  | Nothing :: _ => (({| sqs.Messages := [] |}, None), st')
  | Deliver id handle body :: _ =>
    (({| sqs.Messages :=
           [Some {| sqs.MessageId := Some id;
                    sqs.ReceiptHandle := Some handle;
                    sqs.Body := Some body |}] |}, None), st')
  end.

Definition DeleteMessage (i : sqs.DeleteMessageInput) (st : State)
  : (sqs.DeleteMessageOutput * option error) * State :=
  if String.eqb (sqs.DeleteMessage_ReceiptHandle i) "stale" then
    ((sqs.Build_DeleteMessageOutput, Some "ReceiptHandleIsInvalid"), st)
  else
    ((sqs.Build_DeleteMessageOutput, None),
     {| refused := refused st; created := created st;
        script := script st;
        deleted := deleted st ++ [sqs.DeleteMessage_ReceiptHandle i];
        handlerFailures := handlerFailures st |}).

Definition client (c : aws.Config) : sqs.SQS State :=
  {| sqs.CreateQueue := CreateQueue;
     sqs.GetQueueAttributes := GetQueueAttributes;
     sqs.SendMessage := SendMessage;
     sqs.ReceiveMessage := ReceiveMessage;
     sqs.DeleteMessage := DeleteMessage |}.

Definition Marshal (v : string) : string * option error :=
  if String.eqb v "" then ("", Some "unsupported value")
  else (json.encodeString v, None).

Definition Decode (b : string) (v : string) : string * option error :=
  if String.prefix "{" b then (b, None)
  else (v, Some "invalid character").

Definition handler (q : Queue) (v : string) (st : State)
  : (string * option error) * State :=
  match handlerFailures st with
  | O => ((v, None), st)
  | S k =>
    ((v, Some "handler failed"),
     {| refused := refused st; created := created st;
        script := script st; deleted := deleted st;
        handlerFailures := k |})
  end.

Definition start (refuse : list string) (deliveries : list Delivery)
           (failures : nat) : World State :=
  {| env := {| refused := refuse; created := []; script := deliveries;
               deleted := []; handlerFailures := failures |};
     trace := []; logs := [] |}.

Definition processor (q : Queue) : Processor State string :=
  {| Processor_Queue := q; HandleMessageBody := handler |}.

(** Queues, messages and starting states of the runs below. *)

Definition fresh : Queue :=
  {| Name := "jobs"; URL := ""; DeadLetterQueueURL := "" |}.

Definition jobs : Queue :=
  {| Name := "jobs"; URL := "https://sqs/jobs";
     DeadLetterQueueURL := "https://sqs/jobs-deadMessages" |}.

Definition message (id handle body : string) : sqs.Message :=
  {| sqs.MessageId := Some id; sqs.ReceiptHandle := Some handle;
     sqs.Body := Some body |}.

(** One turn of each kind: a receive error, an empty answer, a body
    that does not decode, a handler failure, a success, and a delete
    failure. *)
Definition mixed : World State :=
  start []
    [ReceiveFails "timeout"; Nothing;
     Deliver "1" "h1" "junk"; Deliver "2" "h2" "{a}";
     Deliver "2" "h2'" "{a}"; Deliver "3" "stale" "{b}"] 1.

Definition refusing : World State :=
  start ["jobs-deadMessages"] [] 0.

Definition provisioned : World State :=
  world_of (Init client fresh (start [] [] 0)).

Definition idle : World State := start [] [Nothing] 0.

Definition one (body : string) : World State :=
  start [] [Deliver "1" "h1" body] 0.

End Sim.

(** * Vocabulary of the properties *)

(** ** Requests built by the package *)

Definition deadLetterParams (name : string) : sqs.CreateQueueInput :=
  {| sqs.QueueName := name +:+ deadLetterQueueSuffix;
     sqs.Attributes := {[ "MessageRetentionPeriod" := Some "1209600" ]} |}.

Definition queueParams (name : string) (policy : RedrivePolicy)
  : sqs.CreateQueueInput :=
  {| sqs.QueueName := name;
     sqs.Attributes :=
       {[ "RedrivePolicy" := Some (json.Marshal_RedrivePolicy policy).1;
          "MessageRetentionPeriod" := Some "1209600" ]} |}.

Definition arnParams (url : string) : sqs.GetQueueAttributesInput :=
  {| sqs.GetQueueAttributes_QueueUrl := url;
     sqs.AttributeNames := [Some "QueueArn"] |}.

Definition receiveParams (queue : Queue) : sqs.ReceiveMessageInput :=
  {| sqs.ReceiveMessage_QueueUrl := URL queue;
     sqs.MaxNumberOfMessages := 1;
     sqs.VisibilityTimeout := 600;
     sqs.WaitTimeSeconds := 20 |}.

Definition deleteParams (queue : Queue) (handle : string)
  : sqs.DeleteMessageInput :=
  {| sqs.DeleteMessage_QueueUrl := URL queue;
     sqs.DeleteMessage_ReceiptHandle := handle |}.

(** ** Messages as the service delivers them

    A message received from the service carries an identifier, a receipt
    handle and a body; the SDK type leaves each of the three optional. *)

Definition message_complete (m : sqs.Message) : Prop :=
  is_Some (sqs.MessageId m) ∧ is_Some (sqs.ReceiptHandle m)
  ∧ is_Some (sqs.Body m).

Definition delivers_complete {Env} (client : sqs.SQS Env) : Prop :=
  ∀ i e m,
    Some m ∈ sqs.Messages (sqs.ReceiveMessage client i e).1.1 →
    message_complete m.


Definition is_poll (ev : Event) : bool :=
  match ev with EvReceiveMessage _ _ _ => true | _ => false end.

(** The number of [ReceiveMessage] calls in a trace. *)
Definition polls (l : list Event) : nat := length (filter is_poll l).

(** ** Vocabulary of the JSON round trip *)

(** The well-formed sequences of two, three and four bytes, with the
    rune each of them encodes. *)
Inductive wf_seq : string -> Z -> Prop :=
| wf_seq2 c0 c1 :
    0xC2 <= utf8.byte c0 <= 0xDF -> 0x80 <= utf8.byte c1 <= 0xBF ->
    wf_seq (String c0 (String c1 EmptyString))
           ((utf8.byte c0 - 0xC0) * 64 + (utf8.byte c1 - 0x80))
| wf_seq3 c0 c1 c2 :
    0xE0 <= utf8.byte c0 <= 0xEF -> 0x80 <= utf8.byte c1 <= 0xBF ->
    (utf8.byte c0 = 0xE0 -> 0xA0 <= utf8.byte c1) ->
    (utf8.byte c0 = 0xED -> utf8.byte c1 <= 0x9F) ->
    0x80 <= utf8.byte c2 <= 0xBF ->
    wf_seq (String c0 (String c1 (String c2 EmptyString)))
           ((utf8.byte c0 - 0xE0) * 4096 + (utf8.byte c1 - 0x80) * 64
            + (utf8.byte c2 - 0x80))
| wf_seq4 c0 c1 c2 c3 :
    0xF0 <= utf8.byte c0 <= 0xF4 -> 0x80 <= utf8.byte c1 <= 0xBF ->
    (utf8.byte c0 = 0xF0 -> 0x90 <= utf8.byte c1) ->
    (utf8.byte c0 = 0xF4 -> utf8.byte c1 <= 0x8F) ->
    0x80 <= utf8.byte c2 <= 0xBF -> 0x80 <= utf8.byte c3 <= 0xBF ->
    wf_seq (String c0 (String c1 (String c2 (String c3 EmptyString))))
           ((utf8.byte c0 - 0xF0) * 262144 + (utf8.byte c1 - 0x80) * 4096
            + (utf8.byte c2 - 0x80) * 64 + (utf8.byte c3 - 0x80)).

(** What the encoder writes for an ASCII byte, and for a well-formed
    sequence. *)
Definition ascii_chunk (c : ascii) : string :=
  if json.htmlSafeSet (utf8.byte c) then String c EmptyString
  else json.escape (utf8.byte c).

Definition rune_chunk (p : string) (r : Z) : string :=
  if (r =? 0x2028) || (r =? 0x2029) then
    String json.backslash
      ("u202" +:+ String (json.hex (Z.land r 0xF)) EmptyString)
  else p.

(** Prepending to the literal found by [scanString]. *)
Definition scanned (chunk : string) (r : option (string * string))
  : option (string * string) :=
  match r with
  | Some (lit, rest) => Some (chunk +:+ lit, rest)
  | None => None
  end.

(** Go's [strings.Contains]. *)
Definition Contains (s substr : string) : Prop :=
  exists before after, s = before +:+ substr +:+ after.

(** The policy of the specification's example, a policy whose target is
    the single byte 0xFF, which is not UTF-8, one whose target is the
    byte 0xFE, and one whose target is the encoding of U+FFFD. *)
Definition example_policy : RedrivePolicy :=
  {| MaxReceiveCount := 5; DeadLetterTargetArn := "X" |}.

Definition invalid_policy : RedrivePolicy :=
  {| MaxReceiveCount := 5;
     DeadLetterTargetArn := String (utf8.chr 0xFF) EmptyString |}.

Definition invalid_policy' : RedrivePolicy :=
  {| MaxReceiveCount := 5;
     DeadLetterTargetArn := String (utf8.chr 0xFE) EmptyString |}.

Definition replaced_policy : RedrivePolicy :=
  {| MaxReceiveCount := 5;
     DeadLetterTargetArn := utf8.EncodeRune utf8.RuneError |}.

Definition zero_policy : RedrivePolicy :=
  {| MaxReceiveCount := 0; DeadLetterTargetArn := EmptyString |}.

(** ** Vocabulary of the further properties *)

(** The error a recorded call returned. *)
Definition event_error (ev : Event) : option error :=
  match ev with
  | EvCreateQueue _ _ err | EvGetQueueAttributes _ _ err
  | EvSendMessage _ _ err | EvReceiveMessage _ _ err
  | EvDeleteMessage _ _ err | EvDecode _ err | EvHandle err => err
  end.

(** The calls [Init] makes for the queue [name]: the creation, with a
    retention of fourteen days, of the queue or of its dead-letter
    queue, and attribute lookups. *)
Definition is_provisioning (name : string) (ev : Event) : Prop :=
  match ev with
  | EvCreateQueue i _ _ =>
    (sqs.QueueName i = name
     ∨ sqs.QueueName i = name +:+ deadLetterQueueSuffix)
    ∧ sqs.Attributes i !! "MessageRetentionPeriod" = Some (Some "1209600")
  | EvGetQueueAttributes i _ _ => sqs.AttributeNames i = [Some "QueueArn"]
  | _ => False
  end.

(** The calls of a turn of the loop on [queue]. *)
Definition is_turn_event (queue : Queue) (ev : Event) : Prop :=
  match ev with
  | EvReceiveMessage i _ _ => i = receiveParams queue
  | EvDecode _ _ | EvHandle _ => True
  | EvDeleteMessage i _ _ => sqs.DeleteMessage_QueueUrl i = URL queue
  | _ => False
  end.

Definition is_received (ev : Event) : bool :=
  match ev with EvReceiveMessage _ _ None => true | _ => false end.

Definition is_decoded (ev : Event) : bool :=
  match ev with EvDecode _ None => true | _ => false end.

Definition is_handled (ev : Event) : bool :=
  match ev with EvHandle None => true | _ => false end.

Definition is_delete (ev : Event) : bool :=
  match ev with EvDeleteMessage _ _ _ => true | _ => false end.

Definition count (f : Event → bool) (l : list Event) : nat :=
  length (filter f l).

(** What a turn of the loop that runs to its end writes to the log for
    a call, after the entry that opens the turn. *)
Definition event_logs (ev : Event) : list LogEntry :=
  match ev with
  | EvReceiveMessage _ _ (Some _) =>
    [{| level := ErrorLevel; text := "Receiving message from queue" |}]
  | EvDecode _ (Some _) =>
    [{| level := ErrorLevel; text := "Unmarshal messageBody" |};
     {| level := WarningLevel; text := "Error unmarshalling message" |}]
  | EvHandle (Some _) =>
    [{| level := WarningLevel; text := "Error processing message" |}]
  | EvDeleteMessage _ _ (Some _) =>
    [{| level := ErrorLevel; text := "Deleting message from queue" |};
     {| level := WarningLevel; text := "Error deleting queue message" |}]
  | EvDeleteMessage _ _ None =>
    [{| level := InfoLevel; text := "Message deleted from queue" |}]
  | _ => []
  end.

(** Bytes that are neither control characters nor one of the three
    characters [<], [>] and [&]. *)
Definition html_safe (c : ascii) : bool :=
  let b := utf8.byte c in
  (0x20 <=? b) && negb (b =? 0x3C) && negb (b =? 0x3E) && negb (b =? 0x26).

Fixpoint all_bytes (f : ascii → bool) (s : string) : bool :=
  match s with
  | EmptyString => true
  | String c s => f c && all_bytes f s
  end.

(** A service that answers every call without an error and with an
    empty answer, but for the URL of a created queue and for one
    message, which has a body and nothing else. *)
Module Bare.

Definition client (c : aws.Config) : sqs.SQS unit :=
  {| sqs.CreateQueue := λ i e,
       (({| sqs.QueueUrl := Some (sqs.QueueName i) |}, None), e);
     sqs.GetQueueAttributes := λ _ e,
       (({| sqs.GetQueueAttributes_Attributes := ∅ |}, None), e);
     sqs.SendMessage := λ _ e,
       (({| sqs.SendMessage_MessageId := None |}, None), e);
     sqs.ReceiveMessage := λ _ e,
       (({| sqs.Messages :=
              [Some {| sqs.MessageId := None; sqs.ReceiptHandle := None;
                       sqs.Body := Some "{}" |}] |}, None), e);
     sqs.DeleteMessage := λ _ e,
       ((sqs.Build_DeleteMessageOutput, None), e) |}.

Definition start : World unit := {| env := tt; trace := []; logs := [] |}.


Definition processor : Processor unit string :=
  {| Processor_Queue := Sim.jobs;
     HandleMessageBody := λ _ v e, ((v, None), e) |}.

Definition message : sqs.Message :=
  {| sqs.MessageId := None; sqs.ReceiptHandle := None;
     sqs.Body := Some "{}" |}.

End Bare.

Definition is_ascii (c : ascii) : bool := utf8.byte c <? utf8.RuneSelf.

(** A session for which only the region of the package has a service:
    the simulated one; everywhere else every call fails. *)
Module Regional.

Definition unreachable : sqs.SQS Sim.State :=
  {| sqs.CreateQueue := λ _ st,
       (({| sqs.QueueUrl := None |}, Some "UnknownEndpoint"), st);
     sqs.GetQueueAttributes := λ _ st,
       (({| sqs.GetQueueAttributes_Attributes := ∅ |},
         Some "UnknownEndpoint"), st);
     sqs.SendMessage := λ _ st,
       (({| sqs.SendMessage_MessageId := None |},
         Some "UnknownEndpoint"), st);
     sqs.ReceiveMessage := λ _ st,
       (({| sqs.Messages := [] |}, Some "UnknownEndpoint"), st);
     sqs.DeleteMessage := λ _ st,
       ((sqs.Build_DeleteMessageOutput, Some "UnknownEndpoint"), st) |}.

Definition client (c : aws.Config) : sqs.SQS Sim.State :=
  if String.eqb (aws.Region c) "eu-central-1" then Sim.client c
  else unreachable.

End Regional.

(** * Tactics *)

(** Symbolic execution of monadic code: unfold the monad and name the
    answers of the environment. *)
Ltac go_unfold :=
  unfold bind, call, log, ret, deref in *; simpl in *.

(** Case analysis on the membership of an event in an explicit list. *)
Ltac event_in H :=
  rewrite ?elem_of_cons, ?elem_of_nil in H;
  repeat (destruct H as [H|H]; try discriminate H);
  try discriminate H; try contradiction.

(** Linear arithmetic with division and remainder by constants. *)
Ltac dlia := Z.to_euclidean_division_equations; lia.

Ltac eval_closed t := let v := eval vm_compute in t in change t with v.

Ltac eval_first_info :=
  repeat match goal with
  | |- context [Z.leb utf8.as_ ?x] => eval_closed (Z.leb utf8.as_ x)
  | |- context [Z.eqb ?x utf8.xx] => eval_closed (Z.eqb x utf8.xx)
  | |- context [Z.to_nat (Z.land ?x 7)] => eval_closed (Z.to_nat (Z.land x 7))
  | |- context [utf8.acceptRanges ?x] => eval_closed (utf8.acceptRanges x)
  end.

(** Case analysis on the comparisons of the first byte in [utf8.first],
    then on everything [DecodeRuneInString] tests. *)
Ltac first_byte_cases b0 :=
  unfold utf8.first;
  repeat match goal with
  | |- context [Z.ltb b0 ?b] => destruct (Z.ltb_spec b0 b); try lia
  | |- context [Z.eqb b0 ?b] => destruct (Z.eqb_spec b0 b); try lia
  end; eval_first_info; cbv iota.

Ltac decode_cases :=
  unfold utf8.locb, utf8.hicb;
  repeat first
    [ progress cbn [String.length Nat.ltb Nat.leb orb fst snd]
    | match goal with
      | |- context [Z.ltb ?a ?b] => destruct (Z.ltb_spec a b)
      | |- context [match ?s with EmptyString => _ | String _ _ => _ end] =>
        is_var s; destruct s as [|? ?]
      | |- context [Nat.leb ?a ?b] => destruct (Nat.leb a b)
      end ].

Ltac all_ascii c H :=
  destruct c as [[] [] [] [] [] [] [] []];
  try (vm_compute in H; discriminate H).


(** * The JSON round trip *)


Lemma byte_range (c : ascii) : 0 <= utf8.byte c < 256.
Proof.
  unfold utf8.byte. pose proof (N_ascii_bounded c). lia.
Qed.

Lemma chr_byte (c : ascii) : utf8.chr (utf8.byte c) = c.
Proof.
  unfold utf8.chr, utf8.byte. rewrite N2Z.id. apply ascii_N_embedding.
Qed.

Lemma byte_chr (b : Z) : 0 <= b < 256 -> utf8.byte (utf8.chr b) = b.
Proof.
  intros H. unfold utf8.chr, utf8.byte.
  rewrite N_ascii_embedding by lia. lia.
Qed.

Lemma lor_disjoint (k a b : Z) :
  0 <= k -> a mod 2 ^ k = 0 -> 0 <= b < 2 ^ k -> Z.lor a b = a + b.
Proof.
  intros Hk Ha Hb. symmetry. apply Z.add_nocarry_lor.
  apply Z.bits_inj'. intros n Hn.
  rewrite Z.land_spec, Z.bits_0.
  destruct (Z.lt_ge_cases n k) as [Hlt|Hge].
  - rewrite <- (Z.mod_pow2_bits_low a k n) by lia. rewrite Ha, Z.bits_0.
    reflexivity.
  - rewrite <- (Z.mod_small b (2 ^ k)) by lia.
    rewrite Z.mod_pow2_bits_high by lia. apply andb_false_r.
Qed.

Lemma land_mod (a : Z) (k : Z) : 0 <= k -> Z.land a (2 ^ k - 1) = a mod 2 ^ k.
Proof.
  intros Hk. rewrite <- Z.land_ones by lia. f_equal.
  rewrite Z.ones_equiv. lia.
Qed.

Lemma land_FF a : Z.land a 0xFF = a mod 256. Proof. exact (land_mod a 8 ltac:(lia)). Qed.
Lemma land_3F a : Z.land a 0x3F = a mod 64. Proof. exact (land_mod a 6 ltac:(lia)). Qed.
Lemma land_1F a : Z.land a 0x1F = a mod 32. Proof. exact (land_mod a 5 ltac:(lia)). Qed.
Lemma land_0F a : Z.land a 0x0F = a mod 16. Proof. exact (land_mod a 4 ltac:(lia)). Qed.
Lemma land_07 a : Z.land a 0x07 = a mod 8. Proof. exact (land_mod a 3 ltac:(lia)). Qed.

Lemma shiftl_6 a : Z.shiftl a 6 = a * 64. Proof. by rewrite Z.shiftl_mul_pow2. Qed.
Lemma shiftl_12 a : Z.shiftl a 12 = a * 4096. Proof. by rewrite Z.shiftl_mul_pow2. Qed.
Lemma shiftl_18 a : Z.shiftl a 18 = a * 262144. Proof. by rewrite Z.shiftl_mul_pow2. Qed.
Lemma shiftr_6 a : Z.shiftr a 6 = a / 64. Proof. by rewrite Z.shiftr_div_pow2. Qed.
Lemma shiftr_12 a : Z.shiftr a 12 = a / 4096. Proof. by rewrite Z.shiftr_div_pow2. Qed.
Lemma shiftr_18 a : Z.shiftr a 18 = a / 262144. Proof. by rewrite Z.shiftr_div_pow2. Qed.

Lemma lor_64 a b : a mod 64 = 0 -> 0 <= b < 64 -> Z.lor a b = a + b.
Proof. intros. by apply (lor_disjoint 6). Qed.
Lemma lor_4096 a b : a mod 4096 = 0 -> 0 <= b < 4096 -> Z.lor a b = a + b.
Proof. intros. by apply (lor_disjoint 12). Qed.
Lemma lor_262144 a b :
  a mod 262144 = 0 -> 0 <= b < 262144 -> Z.lor a b = a + b.
Proof. intros. by apply (lor_disjoint 18). Qed.
Lemma lor_32 a b : a mod 32 = 0 -> 0 <= b < 32 -> Z.lor a b = a + b.
Proof. intros. by apply (lor_disjoint 5). Qed.
Lemma lor_16 a b : a mod 16 = 0 -> 0 <= b < 16 -> Z.lor a b = a + b.
Proof. intros. by apply (lor_disjoint 4). Qed.
Lemma lor_8 a b : a mod 8 = 0 -> 0 <= b < 8 -> Z.lor a b = a + b.
Proof. intros. by apply (lor_disjoint 3). Qed.

(* decoded rune values, arithmetic forms *)
Lemma rune2 (b0 b1 : Z) :
  0xC0 <= b0 <= 0xDF -> 0x80 <= b1 <= 0xBF ->
  Z.lor (Z.shiftl (Z.land b0 utf8.mask2) 6) (Z.land b1 utf8.maskx)
  = (b0 - 0xC0) * 64 + (b1 - 0x80).
Proof.
  intros H0 H1. unfold utf8.mask2, utf8.maskx.
  rewrite land_1F, land_3F, shiftl_6.
  rewrite lor_64 by dlia. dlia.
Qed.

Lemma rune3 (b0 b1 b2 : Z) :
  0xE0 <= b0 <= 0xEF -> 0x80 <= b1 <= 0xBF -> 0x80 <= b2 <= 0xBF ->
  Z.lor (Z.lor (Z.shiftl (Z.land b0 utf8.mask3) 12)
               (Z.shiftl (Z.land b1 utf8.maskx) 6))
        (Z.land b2 utf8.maskx)
  = (b0 - 0xE0) * 4096 + (b1 - 0x80) * 64 + (b2 - 0x80).
Proof.
  intros H0 H1 H2. unfold utf8.mask3, utf8.maskx.
  rewrite land_0F, !land_3F, shiftl_6, shiftl_12.
  rewrite (lor_4096 (_ * 4096)) by dlia.
  rewrite lor_64 by dlia. dlia.
Qed.

Lemma rune4 (b0 b1 b2 b3 : Z) :
  0xF0 <= b0 <= 0xF7 -> 0x80 <= b1 <= 0xBF -> 0x80 <= b2 <= 0xBF ->
  0x80 <= b3 <= 0xBF ->
  Z.lor (Z.lor (Z.lor (Z.shiftl (Z.land b0 utf8.mask4) 18)
                      (Z.shiftl (Z.land b1 utf8.maskx) 12))
               (Z.shiftl (Z.land b2 utf8.maskx) 6))
        (Z.land b3 utf8.maskx)
  = (b0 - 0xF0) * 262144 + (b1 - 0x80) * 4096 + (b2 - 0x80) * 64
    + (b3 - 0x80).
Proof.
  intros H0 H1 H2 H3. unfold utf8.mask4, utf8.maskx.
  rewrite land_07, !land_3F, shiftl_6, shiftl_12, shiftl_18.
  rewrite (lor_262144 (_ * 262144)) by dlia.
  rewrite (lor_4096 (_ + _)) by dlia.
  rewrite lor_64 by dlia. dlia.
Qed.

(* encoded bytes, arithmetic forms *)
Lemma enc_cont (q : Z) :
  0 <= q ->
  Z.lor utf8.tx (Z.land (utf8.trunc8 q) utf8.maskx) = 0x80 + q mod 64.
Proof.
  intros Hq. unfold utf8.tx, utf8.maskx, utf8.trunc8.
  rewrite land_FF, land_3F.
  rewrite lor_64 by dlia. dlia.
Qed.

Lemma enc_lead2 (q : Z) :
  0 <= q < 32 -> Z.lor utf8.t2 (utf8.trunc8 q) = 0xC0 + q.
Proof.
  intros Hq. unfold utf8.t2, utf8.trunc8. rewrite land_FF.
  rewrite lor_32 by dlia. dlia.
Qed.

Lemma enc_lead3 (q : Z) :
  0 <= q < 16 -> Z.lor utf8.t3 (utf8.trunc8 q) = 0xE0 + q.
Proof.
  intros Hq. unfold utf8.t3, utf8.trunc8. rewrite land_FF.
  rewrite lor_16 by dlia. dlia.
Qed.

Lemma enc_lead4 (q : Z) :
  0 <= q < 8 -> Z.lor utf8.t4 (utf8.trunc8 q) = 0xF0 + q.
Proof.
  intros Hq. unfold utf8.t4, utf8.trunc8. rewrite land_FF.
  rewrite lor_8 by dlia. dlia.
Qed.

Lemma EncodeRune2 (r : Z) :
  0x80 <= r <= 0x7FF ->
  utf8.EncodeRune r
  = String (utf8.chr (0xC0 + r / 64))
      (String (utf8.chr (0x80 + r mod 64)) EmptyString).
Proof.
  intros Hr. unfold utf8.EncodeRune.
  destruct (Z.leb_spec 0 r); [|lia].
  destruct (Z.leb_spec r 0x7F); [lia|].
  destruct (Z.leb_spec r 0x7FF); [|lia]. simpl.
  rewrite shiftr_6, enc_lead2, enc_cont by dlia. reflexivity.
Qed.

Lemma EncodeRune3 (r : Z) :
  0x800 <= r <= 0xFFFF -> ~ (0xD800 <= r <= 0xDFFF) ->
  utf8.EncodeRune r
  = String (utf8.chr (0xE0 + r / 4096))
      (String (utf8.chr (0x80 + (r / 64) mod 64))
         (String (utf8.chr (0x80 + r mod 64)) EmptyString)).
Proof.
  intros Hr Hs. unfold utf8.EncodeRune, utf8.MaxRune.
  destruct (Z.leb_spec 0 r); [|lia].
  destruct (Z.leb_spec r 0x7F); [lia|].
  destruct (Z.leb_spec r 0x7FF); [lia|].
  destruct (Z.ltb_spec r 0); [lia|].
  destruct (Z.ltb_spec 0x10FFFF r); [lia|].
  destruct (Z.leb_spec 0xD800 r), (Z.leb_spec r 0xDFFF); try lia; simpl;
    (destruct (Z.leb_spec r 0xFFFF); [|lia]); unfold utf8.encode3;
    rewrite shiftr_6, shiftr_12, enc_lead3, !enc_cont by dlia; reflexivity.
Qed.

Lemma EncodeRune4 (r : Z) :
  0x10000 <= r <= 0x10FFFF ->
  utf8.EncodeRune r
  = String (utf8.chr (0xF0 + r / 262144))
      (String (utf8.chr (0x80 + (r / 4096) mod 64))
         (String (utf8.chr (0x80 + (r / 64) mod 64))
            (String (utf8.chr (0x80 + r mod 64)) EmptyString))).
Proof.
  intros Hr. unfold utf8.EncodeRune, utf8.MaxRune.
  destruct (Z.leb_spec 0 r); [|lia].
  destruct (Z.leb_spec r 0x7F); [lia|].
  destruct (Z.leb_spec r 0x7FF); [lia|].
  destruct (Z.ltb_spec r 0); [lia|].
  destruct (Z.ltb_spec 0x10FFFF r); [lia|].
  destruct (Z.leb_spec 0xD800 r), (Z.leb_spec r 0xDFFF); try lia; simpl;
    (destruct (Z.leb_spec r 0xFFFF); [lia|]);
    rewrite shiftr_6, shiftr_12, shiftr_18, enc_lead4, !enc_cont by dlia;
    reflexivity.
Qed.

Lemma append_cons (c : ascii) (s t : string) :
  String c s +:+ t = String c (s +:+ t).
Proof. reflexivity. Qed.

Lemma append_nil (t : string) : EmptyString +:+ t = t.
Proof. reflexivity. Qed.

Lemma append_assoc (s t u : string) : (s +:+ t) +:+ u = s +:+ (t +:+ u).
Proof. induction s as [|c s IH]; [reflexivity|]. by rewrite !append_cons, IH. Qed.

Lemma length_append (s t : string) :
  String.length (s +:+ t) = (String.length s + String.length t)%nat.
Proof. induction s as [|c s IH]; [reflexivity|]. rewrite append_cons. simpl. by rewrite IH. Qed.

Ltac norm_append :=
  repeat (rewrite append_cons || rewrite append_nil || rewrite append_assoc).

(** Decoding at a byte of 0x80 or more either fails, consuming one byte,
    or finds a well-formed sequence at the head of the string. *)
Lemma DecodeRune_view (c0 : ascii) (t : string) :
  0x80 <= utf8.byte c0 ->
  utf8.DecodeRuneInString (String c0 t) = (utf8.RuneError, 1%nat)
  \/ exists p r t',
       wf_seq p r /\ String c0 t = p +:+ t'
       /\ utf8.DecodeRuneInString (String c0 t) = (r, String.length p).
Proof.
  intros H0. unfold utf8.DecodeRuneInString.
  set (b0 := utf8.byte c0) in *.
  first_byte_cases b0; try (by left).
  all: destruct t as [|c1 t1]; [by left|].
  all: decode_cases; try (by left).
  all: subst b0; right.
  all: first
    [ rewrite rune2 by lia;
      eexists (String _ (String _ EmptyString)), _, _;
      (split; [|split; [reflexivity|reflexivity]]); apply wf_seq2; lia
    | rewrite rune3 by lia;
      eexists (String _ (String _ (String _ EmptyString))), _, _;
      (split; [|split; [reflexivity|reflexivity]]); apply wf_seq3; lia
    | rewrite rune4 by lia;
      eexists (String _ (String _ (String _ (String _ EmptyString)))), _, _;
      (split; [|split; [reflexivity|reflexivity]]); apply wf_seq4; lia ].
Qed.

(** A well-formed sequence decodes to its rune, whatever follows it. *)
Lemma DecodeRune_wf_seq (p : string) (r : Z) (t : string) :
  wf_seq p r ->
  utf8.DecodeRuneInString (p +:+ t) = (r, String.length p).
Proof.
  intros [c0 c1 H0 H1|c0 c1 c2 H0 H1 Hlo Hhi H2
          |c0 c1 c2 c3 H0 H1 Hlo Hhi H2 H3]; rewrite !append_cons, append_nil;
    unfold utf8.DecodeRuneInString.
  all: set (b0 := utf8.byte c0) in *.
  all: first_byte_cases b0; decode_cases; try lia; subst b0.
  all: first [ rewrite rune2 by lia | rewrite rune3 by lia
             | rewrite rune4 by lia ]; reflexivity.
Qed.

(** Encoding the rune of a well-formed sequence gives the sequence
    back. *)
Lemma chr_eq (b : Z) (c : ascii) : b = utf8.byte c -> utf8.chr b = c.
Proof. intros ->. apply chr_byte. Qed.

Lemma EncodeRune_wf_seq (p : string) (r : Z) :
  wf_seq p r -> utf8.EncodeRune r = p.
Proof.
  intros [c0 c1 H0 H1|c0 c1 c2 H0 H1 Hlo Hhi H2
          |c0 c1 c2 c3 H0 H1 Hlo Hhi H2 H3].
  - rewrite EncodeRune2 by lia.
    repeat match goal with
    | |- String _ _ = String _ _ => f_equal
    | |- utf8.chr _ = _ => apply chr_eq; dlia
    end.
  - rewrite EncodeRune3 by lia.
    repeat match goal with
    | |- String _ _ = String _ _ => f_equal
    | |- utf8.chr _ = _ => apply chr_eq; dlia
    end.
  - rewrite EncodeRune4 by lia.
    repeat match goal with
    | |- String _ _ = String _ _ => f_equal
    | |- utf8.chr _ = _ => apply chr_eq; dlia
    end.
Qed.

Lemma string_length_ind (P : string -> Prop) :
  (forall s, (forall s', (String.length s' < String.length s)%nat -> P s') -> P s) ->
  forall s, P s.
Proof.
  intros Hstep s. remember (String.length s) as n eqn:Hn.
  revert s Hn. induction n as [n IH] using lt_wf_ind.
  intros s ->. apply Hstep. intros s' Hlt. by apply (IH _ Hlt).
Qed.

Lemma encodeString_loop_ascii (c : ascii) (t : string) :
  utf8.byte c < 0x80 ->
  json.encodeString_loop (String c t)
  = ascii_chunk c +:+ json.encodeString_loop t.
Proof.
  intros H. cbn [json.encodeString_loop]. unfold utf8.RuneSelf.
  destruct (Z.ltb_spec (utf8.byte c) 128); [reflexivity|lia].
Qed.

Lemma wf_seq_head (p : string) (r : Z) :
  wf_seq p r ->
  exists c0 c1 q, p = String c0 (String c1 q) /\ 0x80 <= utf8.byte c0
                  /\ (2 <= String.length p <= 4)%nat
                  /\ utf8.take (String.length p) p = p.
Proof.
  intros [c0 c1 H0 H1|c0 c1 c2 H0 H1 Hlo Hhi H2
          |c0 c1 c2 c3 H0 H1 Hlo Hhi H2 H3];
    eexists _, _, _; (split; [reflexivity|]); simpl; repeat split; lia.
Qed.

Lemma wf_seq_range (p : string) (r : Z) :
  wf_seq p r ->
  0x80 <= r <= 0x10FFFF /\ ~ (0xD800 <= r <= 0xDFFF)
  /\ (r = utf8.RuneError -> String.length p = 3%nat).
Proof.
  intros [c0 c1 H0 H1|c0 c1 c2 H0 H1 Hlo Hhi H2
          |c0 c1 c2 c3 H0 H1 Hlo Hhi H2 H3]; unfold utf8.RuneError;
    simpl; repeat split; try lia.
Qed.

(** The steps of the three loops over a well-formed sequence. *)
Ltac wf_seq_step Hwf t :=
  let Hd := fresh "Hd" in
  let Hr := fresh "Hr" in
  pose proof (DecodeRune_wf_seq _ _ t Hwf) as Hd;
  pose proof (wf_seq_range _ _ Hwf) as Hr;
  destruct Hwf as [c0 c1 H0 H1|c0 c1 c2 H0 H1 Hlo Hhi H2
                   |c0 c1 c2 c3 H0 H1 Hlo Hhi H2 H3];
  rewrite ?append_cons, ?append_nil in *.

Lemma ValidString_wf_seq (p : string) (r : Z) (t : string) :
  wf_seq p r -> utf8.ValidString (p +:+ t) = utf8.ValidString t.
Proof.
  intros Hwf. wf_seq_step Hwf t.
  all: cbn [utf8.ValidString]; unfold utf8.RuneSelf; rewrite Hd.
  all: destruct (Z.ltb_spec (utf8.byte c0) 128); [lia|].
  all: cbn [String.length Nat.eqb]; rewrite andb_false_r; reflexivity.
Qed.

Lemma encodeString_loop_wf_seq (p : string) (r : Z) (t : string) :
  wf_seq p r ->
  json.encodeString_loop (p +:+ t)
  = rune_chunk p r +:+ json.encodeString_loop t.
Proof.
  intros Hwf. unfold rune_chunk. wf_seq_step Hwf t.
  all: cbn [json.encodeString_loop]; unfold utf8.RuneSelf; rewrite Hd.
  all: destruct (Z.ltb_spec (utf8.byte c0) 128); [lia|].
  all: cbn [String.length Nat.eqb utf8.take]; rewrite andb_false_r.
  all: destruct ((_ =? 0x2028) || (_ =? 0x2029)); reflexivity.
Qed.

Lemma unquote_ascii_chunk (c : ascii) (t : string) :
  utf8.byte c < 0x80 ->
  json.unquote (ascii_chunk c +:+ t) = option_map (String c) (json.unquote t).
Proof. intros H. all_ascii c H; reflexivity. Qed.

Lemma scanString_ascii_chunk (c : ascii) (t : string) :
  utf8.byte c < 0x80 ->
  json.scanString (ascii_chunk c +:+ t)
  = scanned (ascii_chunk c) (json.scanString t).
Proof.
  intros H. all_ascii c H; reflexivity.
Qed.

Lemma scanned_append (a b : string) (r : option (string * string)) :
  scanned a (scanned b r) = scanned (a +:+ b) r.
Proof. destruct r as [[lit rest]|]; simpl; [|reflexivity]. by rewrite append_assoc. Qed.

Lemma scanString_high (c : ascii) (t : string) :
  0x80 <= utf8.byte c ->
  json.scanString (String c t)
  = scanned (String c EmptyString) (json.scanString t).
Proof.
  intros H. cbn [json.scanString].
  destruct (Z.eqb_spec (utf8.byte c) 0x22); [lia|].
  destruct (Z.eqb_spec (utf8.byte c) 0x5C); [lia|].
  destruct (Z.ltb_spec (utf8.byte c) 0x20); [lia|].
  destruct (json.scanString t) as [[lit rest]|]; reflexivity.
Qed.

Lemma scanString_wf_seq (p : string) (r : Z) (t : string) :
  wf_seq p r ->
  json.scanString (p +:+ t) = scanned p (json.scanString t).
Proof.
  intros [c0 c1 H0 H1|c0 c1 c2 H0 H1 Hlo Hhi H2
          |c0 c1 c2 c3 H0 H1 Hlo Hhi H2 H3];
    rewrite ?append_cons, ?append_nil;
    rewrite !scanString_high by lia; rewrite !scanned_append;
    reflexivity.
Qed.

Lemma scanString_rune_chunk (p : string) (r : Z) (t : string) :
  wf_seq p r ->
  json.scanString (rune_chunk p r +:+ t)
  = scanned (rune_chunk p r) (json.scanString t).
Proof.
  intros Hwf. unfold rune_chunk.
  destruct (Z.eqb_spec r 0x2028) as [->|]; [reflexivity|].
  destruct (Z.eqb_spec r 0x2029) as [->|]; [reflexivity|].
  by apply scanString_wf_seq with r.
Qed.

Lemma unquote_wf_seq (p : string) (r : Z) (t : string) :
  wf_seq p r ->
  json.unquote (p +:+ t) = option_map (String.append p) (json.unquote t).
Proof.
  intros Hwf. pose proof (EncodeRune_wf_seq _ _ Hwf) as He.
  wf_seq_step Hwf t.
  all: cbn [json.unquote]; unfold utf8.RuneSelf; rewrite Hd.
  all: destruct (Z.eqb_spec (utf8.byte c0) 0x5C); [lia|].
  all: destruct (Z.eqb_spec (utf8.byte c0) 0x22); [lia|].
  all: destruct (Z.ltb_spec (utf8.byte c0) 0x20); [lia|].
  all: destruct (Z.ltb_spec (utf8.byte c0) 128); [lia|].
  all: cbn [orb String.length]; rewrite He; reflexivity.
Qed.

Lemma unquote_rune_chunk (p : string) (r : Z) (t : string) :
  wf_seq p r ->
  json.unquote (rune_chunk p r +:+ t)
  = option_map (String.append p) (json.unquote t).
Proof.
  intros Hwf. pose proof (EncodeRune_wf_seq _ _ Hwf) as He.
  unfold rune_chunk.
  destruct (Z.eqb_spec r 0x2028) as [->|]; [by rewrite <- He|].
  destruct (Z.eqb_spec r 0x2029) as [->|]; [by rewrite <- He|].
  by apply unquote_wf_seq with r.
Qed.

(** The text written by the encoder is scanned back as one string
    literal, up to the closing quote. *)
Lemma scanString_encodeString_loop (s rest : string) :
  json.scanString (json.encodeString_loop s +:+ String json.dquote rest)
  = Some (json.encodeString_loop s, rest).
Proof.
  induction s as [s IH] using string_length_ind.
  destruct s as [|c t]; [reflexivity|].
  destruct (Z.lt_ge_cases (utf8.byte c) 0x80) as [Hlt|Hge].
  - rewrite encodeString_loop_ascii, append_assoc by done.
    rewrite scanString_ascii_chunk, IH by (done || (simpl; lia)).
    reflexivity.
  - destruct (DecodeRune_view c t) as [Hinv|(p & r & t' & Hwf & Hs & Hd)];
      [lia| |].
    + cbn [json.encodeString_loop]. unfold utf8.RuneSelf. rewrite Hinv.
      destruct (Z.ltb_spec (utf8.byte c) 128); [lia|].
      cbn [Z.eqb Nat.eqb andb utf8.RuneError Pos.eqb].
      rewrite append_assoc.
      change (json.scanString
                (String json.backslash "ufffd" +:+
                 json.encodeString_loop t +:+ String json.dquote rest))
        with (scanned (String json.backslash "ufffd")
                (json.scanString
                   (json.encodeString_loop t +:+ String json.dquote rest))).
      rewrite IH by (simpl; lia). reflexivity.
    + rewrite Hs, encodeString_loop_wf_seq with (r := r), append_assoc
        by done.
      rewrite scanString_rune_chunk by done.
      rewrite IH; [reflexivity|].
      rewrite Hs, length_append.
      destruct (wf_seq_head _ _ Hwf) as (? & ? & ? & _ & _ & ? & _). lia.
Qed.

(** Unquoting the text written for a valid string gives the string. *)
Lemma unquote_encodeString_loop (s : string) :
  utf8.ValidString s = true ->
  json.unquote (json.encodeString_loop s) = Some s.
Proof.
  induction s as [s IH] using string_length_ind.
  destruct s as [|c t]; [reflexivity|]. intros Hv.
  destruct (Z.lt_ge_cases (utf8.byte c) 0x80) as [Hlt|Hge].
  - rewrite encodeString_loop_ascii, unquote_ascii_chunk by done.
    rewrite IH; [reflexivity|simpl; lia|].
    revert Hv. cbn [utf8.ValidString]. unfold utf8.RuneSelf.
    by destruct (Z.ltb_spec (utf8.byte c) 128); [|lia].
  - destruct (DecodeRune_view c t) as [Hinv|(p & r & t' & Hwf & Hs & Hd)];
      [lia| |].
    + revert Hv. cbn [utf8.ValidString]. unfold utf8.RuneSelf.
      rewrite Hinv.
      destruct (Z.ltb_spec (utf8.byte c) 128); [lia|]. discriminate.
    + rewrite Hs in Hv |- *.
      rewrite ValidString_wf_seq with (r := r) in Hv by done.
      rewrite encodeString_loop_wf_seq with (r := r) by done.
      rewrite unquote_rune_chunk by done.
      rewrite IH; [reflexivity| |done].
      rewrite Hs, length_append.
      destruct (wf_seq_head _ _ Hwf) as (? & ? & ? & _ & _ & ? & _). lia.
Qed.

(** ** Decimal literals *)

Lemma allDigits_uint (d : Decimal.uint) :
  strconv.allDigits (NilEmpty.string_of_uint d) = true.
Proof. induction d; simpl; auto. Qed.

Lemma spanDigits_uint (d : Decimal.uint) (c : ascii) (rest : string) :
  strconv.isDigit c = false ->
  json.spanDigits (NilEmpty.string_of_uint d +:+ String c rest)
  = (NilEmpty.string_of_uint d, String c rest).
Proof.
  intros Hc. induction d; simpl;
    rewrite ?append_cons, ?append_nil; cbn [json.spanDigits];
    rewrite ?Hc, ?IHd; reflexivity.
Qed.

(** The decimal digits of a positive number do not start with a zero. *)
Lemma to_uint_head (p : positive) :
  exists c more,
    NilEmpty.string_of_uint (Pos.to_uint p) = String c more
    /\ strconv.isDigit c = true /\ utf8.byte c <> 0x30.
Proof.
  assert (Hnorm : Decimal.unorm (Pos.to_uint p) = Pos.to_uint p).
  { rewrite <- Unsigned.to_of, Unsigned.of_to. reflexivity. }
  pose proof (Unsigned.to_uint_nonzero p) as Hnz.
  pose proof (Unsigned.to_uint_nonnil p) as Hnn.
  destruct (Pos.to_uint p) as [|d|d|d|d|d|d|d|d|d|d].
  { by destruct Hnn. }
  { exfalso. rewrite unorm_D0 in Hnorm. unfold Decimal.unorm in Hnorm.
    destruct (Decimal.nzhead d) eqn:Eh; try discriminate Hnorm.
    - injection Hnorm as <-. by destruct Hnz.
    - injection Hnorm as ->. exact (nzhead_nonzero _ _ Eh). }
  all: eexists _, _; (split; [reflexivity|]); split; [reflexivity|];
    vm_compute; discriminate.
Qed.

Lemma isDigit_byte (c : ascii) :
  strconv.isDigit c = true -> 0x30 <= utf8.byte c <= 0x39.
Proof. unfold strconv.isDigit. lia. Qed.

(** The shape of [FormatInt n]: an optional minus sign, then digits
    without a leading zero, or the single digit zero. *)
Lemma FormatInt_shape (n : Z) :
  exists sign c more,
    strconv.FormatInt n = sign +:+ String c more
    /\ (sign = EmptyString \/ sign = "-")
    /\ strconv.isDigit c = true
    /\ strconv.allDigits more = true
    /\ (utf8.byte c = 0x30 -> more = EmptyString)
    /\ forall c' rest, strconv.isDigit c' = false ->
         json.spanDigits (String c more +:+ String c' rest)
         = (String c more, String c' rest).
Proof.
  unfold strconv.FormatInt.
  destruct n as [|p|p]; cbn [Z.to_int NilEmpty.string_of_int].
  - exists EmptyString, "0"%char, EmptyString.
    repeat split; auto. intros c' rest Hc.
    exact (spanDigits_uint (Decimal.D0 Decimal.Nil) c' rest Hc).
  - destruct (to_uint_head p) as (c & more & E & Hd & Hz).
    exists EmptyString, c, more. rewrite E.
    split; [reflexivity|]. split; [by left|]. split; [done|].
    pose proof (allDigits_uint (Pos.to_uint p)) as Ha. rewrite E in Ha.
    simpl in Ha. rewrite Hd in Ha. split; [done|]. split; [done|].
    intros c' rest Hc. rewrite <- E. by apply spanDigits_uint.
  - destruct (to_uint_head p) as (c & more & E & Hd & Hz).
    exists "-", c, more. rewrite E.
    split; [reflexivity|]. split; [by right|]. split; [done|].
    pose proof (allDigits_uint (Pos.to_uint p)) as Ha. rewrite E in Ha.
    simpl in Ha. rewrite Hd in Ha. split; [done|]. split; [done|].
    intros c' rest Hc. rewrite <- E. by apply spanDigits_uint.
Qed.

Lemma scanInt_FormatInt (n : Z) (rest : string) :
  json.scanInt (strconv.FormatInt n +:+ String "," rest)
  = Some (strconv.FormatInt n, String "," rest).
Proof.
  destruct (FormatInt_shape n)
    as (sign & c & more & -> & Hs & Hd & Ha & Hz & Hspan).
  apply isDigit_byte in Hd as Hb.
  specialize (Hspan ","%char rest eq_refl).
  rewrite append_cons in Hspan.
  unfold json.scanInt.
  destruct Hs as [-> | ->];
    repeat (rewrite append_cons || rewrite append_nil).
  - destruct (Z.eqb_spec (utf8.byte c) 0x2D); [lia|].
    rewrite Hspan.
    destruct (Z.eqb_spec (utf8.byte c) 0x30) as [E0|_].
    + rewrite (Hz E0). reflexivity.
    + reflexivity.
  - change (utf8.byte "-" =? 0x2D) with true. cbv iota.
    rewrite Hspan.
    destruct (Z.eqb_spec (utf8.byte c) 0x30) as [E0|_].
    + rewrite (Hz E0). reflexivity.
    + reflexivity.
Qed.

Lemma ParseInt_FormatInt (n : Z) :
  int_range n -> strconv.ParseInt (strconv.FormatInt n) = Some n.
Proof.
  intros Hr.
  destruct (FormatInt_shape n)
    as (sign & c & more & E & Hs & Hd & Ha & _ & _).
  apply isDigit_byte in Hd as Hb.
  unfold strconv.ParseInt.
  assert (Hi : NilEmpty.int_of_string (strconv.FormatInt n)
               = Some (Z.to_int n)) by apply NilEmpty.isi.
  rewrite Hi, DecimalZ.of_to. rewrite E.
  assert (Hrange : (strconv.minInt64 <=? n) && (n <=? strconv.maxInt64)
                   = true).
  { unfold int_range in Hr. lia. }
  rewrite Hrange.
  destruct Hs as [-> | ->];
    repeat (rewrite append_cons || rewrite append_nil).
  - destruct (Z.eqb_spec (utf8.byte c) 0x2D); [lia|].
    cbn [strconv.allDigits]. by rewrite Hd, Ha.
  - change (utf8.byte "-" =? 0x2D) with true. cbv iota.
    cbn [strconv.allDigits]. by rewrite Hd, Ha.
Qed.

Lemma FormatInt_head (n : Z) :
  exists c more,
    strconv.FormatInt n = String c more
    /\ json.isSpace c = false /\ (utf8.byte c =? 0x22) = false.
Proof.
  destruct (FormatInt_shape n)
    as (sign & c & more & E & Hs & Hd & _).
  apply isDigit_byte in Hd as Hb. rewrite E.
  destruct Hs as [-> | ->];
    repeat (rewrite append_cons || rewrite append_nil).
  - exists c, more. split; [reflexivity|]. unfold json.isSpace.
    split; lia.
  - eexists _, _. split; [reflexivity|]. split; reflexivity.
Qed.

Lemma skipSpace_FormatInt (n : Z) (rest : string) :
  json.skipSpace (strconv.FormatInt n +:+ rest)
  = strconv.FormatInt n +:+ rest.
Proof.
  destruct (FormatInt_head n) as (c & more & -> & Hs & _).
  rewrite append_cons. cbn [json.skipSpace]. by rewrite Hs.
Qed.

Lemma scanValue_FormatInt (n : Z) (rest : string) :
  json.scanValue (strconv.FormatInt n +:+ String "," rest)
  = Some (json.VNumber (strconv.FormatInt n), String "," rest).
Proof.
  unfold json.scanValue. rewrite scanInt_FormatInt.
  destruct (FormatInt_head n) as (c & more & -> & _ & Hq).
  rewrite append_cons. by rewrite Hq.
Qed.

Lemma setField_count (lit : string) (p : RedrivePolicy) (n : Z) :
  strconv.ParseInt lit = Some n ->
  json.setField "maxReceiveCount" (json.VNumber lit) p
  = Some {| MaxReceiveCount := n;
            DeadLetterTargetArn := DeadLetterTargetArn p |}.
Proof. intros H. unfold json.setField. simpl. by rewrite H. Qed.

Lemma setField_arn (str : string) (p : RedrivePolicy) :
  json.setField "deadLetterTargetArn" (json.VString str) p
  = Some {| MaxReceiveCount := MaxReceiveCount p;
            DeadLetterTargetArn := str |}.
Proof. reflexivity. Qed.

Arguments strconv.FormatInt : simpl never.
Arguments strconv.ParseInt : simpl never.

(** Decoding what [json.Marshal] writes for a policy gives the policy,
    whatever the destination held before. *)
Lemma Unmarshal_Marshal (p p0 : RedrivePolicy) :
  int_range (MaxReceiveCount p) ->
  utf8.ValidString (DeadLetterTargetArn p) = true ->
  json.Unmarshal_RedrivePolicy (json.Marshal_RedrivePolicy p).1 p0 = Ok p.
Proof.
  intros Hn Hv. destruct p as [n arn]. simpl in Hn, Hv.
  unfold json.Marshal_RedrivePolicy.
  cbn [fst MaxReceiveCount DeadLetterTargetArn].
  eval_closed (json.encodeString "maxReceiveCount").
  eval_closed (json.encodeString "deadLetterTargetArn").
  unfold json.encodeString.
  norm_append.
  unfold json.Unmarshal_RedrivePolicy.
  simpl.
  rewrite skipSpace_FormatInt, scanValue_FormatInt.
  simpl.
  rewrite (setField_count _ _ _ (ParseInt_FormatInt n Hn)).
  rewrite scanString_encodeString_loop, (unquote_encodeString_loop arn Hv).
  rewrite setField_arn. reflexivity.
Qed.

Lemma Marshal_field_names (p : RedrivePolicy) :
  Contains (json.Marshal_RedrivePolicy p).1 "maxReceiveCount"
  /\ Contains (json.Marshal_RedrivePolicy p).1 "deadLetterTargetArn".
Proof.
  unfold json.Marshal_RedrivePolicy. cbn [fst].
  eval_closed (json.encodeString "maxReceiveCount").
  eval_closed (json.encodeString "deadLetterTargetArn").
  split.
  - exists (String "{" (String json.dquote EmptyString)). eexists.
    norm_append. reflexivity.
  - exists (String "{" (String json.dquote
              ("maxReceiveCount" +:+ String json.dquote
                 (":" +:+ strconv.FormatInt (MaxReceiveCount p) +:+
                  String "," (String json.dquote EmptyString))))).
    eexists. norm_append. reflexivity.
Qed.

(** C7, as far as it holds: for every policy whose count is a Go [int]
    and whose target is valid UTF-8 (so for the policy with count 5 and
    target "X") [GetAsAWSString] returns, without an error, a string
    that decodes to the same policy, whatever the destination held, and
    that contains the two field names. *)
Theorem RedrivePolicy_round_trip {Env : Type} (policy : RedrivePolicy)
        (w : World Env) :
  int_range (MaxReceiveCount policy) ->
  utf8.ValidString (DeadLetterTargetArn policy) = true ->
  exists policyString,
    GetAsAWSString policy w = Done (Some policyString, None) w
    /\ (forall v, json.Unmarshal_RedrivePolicy policyString v = Ok policy)
    /\ Contains policyString "maxReceiveCount"
    /\ Contains policyString "deadLetterTargetArn".
Proof.
  intros Hn Hv. exists (json.Marshal_RedrivePolicy policy).1.
  split; [reflexivity|]. split.
  - intros v. by apply Unmarshal_Marshal.
  - apply Marshal_field_names.
Qed.

(** * Provisioning *)

Section Provisioning.

Context {Env : Type}.
Variable sqs_New : aws.Config -> sqs.SQS Env.

Let client := sqs_New {| aws.Region := sqsRegion |}.

(** What [Init] does, by the answers of the service. *)
Lemma Init_cases (queue : Queue) (w : World Env) :
  let r1 :=
    sqs.CreateQueue client (deadLetterParams (Name queue)) (env w) in
  let ev1 :=
    EvCreateQueue (deadLetterParams (Name queue)) r1.1.1 r1.1.2 in
  match r1.1.2, sqs.QueueUrl r1.1.1 with
  | Some e, _ =>
    ∃ w', Init sqs_New queue w = Done (queue, Some e) w'
          ∧ trace w' = trace w ++ [ev1] ∧ env w' = r1.2
  | None, None =>
    ∃ w', Init sqs_New queue w = Panicked w'
          ∧ trace w' = trace w ++ [ev1]
  | None, Some durl =>
    let queue1 := {| Name := Name queue; URL := URL queue;
                     DeadLetterQueueURL := durl |} in
    let r2 := sqs.GetQueueAttributes client (arnParams durl) r1.2 in
    let ev2 := EvGetQueueAttributes (arnParams durl) r2.1.1 r2.1.2 in
    match r2.1.2,
          mjoin (sqs.GetQueueAttributes_Attributes r2.1.1 !! "QueueArn")
    with
    | Some e, _ =>
      ∃ w', Init sqs_New queue w = Done (queue1, Some e) w'
            ∧ trace w' = trace w ++ [ev1; ev2]
    | None, None =>
      ∃ w', Init sqs_New queue w = Panicked w'
            ∧ trace w' = trace w ++ [ev1; ev2]
    | None, Some arn =>
      let policy := {| MaxReceiveCount := MaxReceiveCountBeforeDead;
                       DeadLetterTargetArn := arn |} in
      let r3 :=
        sqs.CreateQueue client (queueParams (Name queue) policy) r2.2 in
      let ev3 :=
        EvCreateQueue (queueParams (Name queue) policy) r3.1.1 r3.1.2 in
      match r3.1.2, sqs.QueueUrl r3.1.1 with
      | Some e, _ =>
        ∃ w', Init sqs_New queue w = Done (queue1, Some e) w'
              ∧ trace w' = trace w ++ [ev1; ev2; ev3]
      | None, None =>
        ∃ w', Init sqs_New queue w = Panicked w'
              ∧ trace w' = trace w ++ [ev1; ev2; ev3]
      | None, Some url =>
        ∃ w', Init sqs_New queue w
              = Done ({| Name := Name queue; URL := url;
                         DeadLetterQueueURL := durl |}, None) w'
              ∧ trace w' = trace w ++ [ev1; ev2; ev3]
      end
    end
  end.
Proof.
  unfold Init, GetAttributesByQueueURL, GetAsAWSString, GetClient.
  fold client. go_unfold.
  unfold deadLetterParams, arnParams, queueParams. simpl.
  destruct (sqs.CreateQueue client _ (env w)) as [[o1 [e1|]] env1]; simpl.
  { eexists; split; [reflexivity|]. simpl. auto. }
  destruct (sqs.QueueUrl o1) as [durl|]; simpl.
  2: { eexists; split; [reflexivity|]. simpl. auto. }
  destruct (sqs.GetQueueAttributes client _ env1) as [[o2 [e2|]] env2];
    simpl.
  { eexists; split; [reflexivity|]. simpl. by rewrite <- app_assoc. }
  destruct (mjoin _) as [arn|]; simpl.
  2: { eexists; split; [reflexivity|]. simpl. by rewrite <- app_assoc. }
  destruct (sqs.CreateQueue client _ env2) as [[o3 [e3|]] env3]; simpl.
  { eexists; split; [reflexivity|]. simpl. by rewrite <- !app_assoc. }
  destruct (sqs.QueueUrl o3) as [url|]; simpl.
  - eexists; split; [reflexivity|]. simpl. by rewrite <- !app_assoc.
  - eexists; split; [reflexivity|]. simpl. by rewrite <- !app_assoc.
Qed.

(** C1: [Init] creates the dead-letter queue, named after the queue
    with the suffix "-deadMessages", before anything else: the first
    call it makes is that creation, and any other queue creation it
    makes (the primary queue's) comes later and only when the
    dead-letter queue was created.  When the creation of the dead-letter
    queue fails, [Init] makes no further call and returns that error. *)
Theorem Init_dead_letter_queue_first (queue : Queue) (w : World Env) :
  let params := deadLetterParams (Name queue) in
  let r1 := sqs.CreateQueue client params (env w) in
  sqs.QueueName params = Name queue +:+ "-deadMessages" ∧
  ∃ rest,
    trace (world_of (Init sqs_New queue w))
      = trace w ++ EvCreateQueue params r1.1.1 r1.1.2 :: rest
    ∧ (∀ i o err, EvCreateQueue i o err ∈ rest →
         r1.1.2 = None ∧ sqs.QueueName i = Name queue)
    ∧ (∀ e, r1.1.2 = Some e →
         rest = []
         ∧ ∃ w', Init sqs_New queue w = Done (queue, Some e) w').
Proof.
  intros params r1. split; [reflexivity|].
  pose proof (Init_cases queue w) as H. simpl in H.
  fold params r1 in H.
  destruct (r1.1.2) as [e1|] eqn:E1.
  { destruct H as (w' & Hr & Ht & _). exists []. rewrite Hr. simpl.
    split; [exact Ht|]. split.
    - intros i o err Hin. by apply elem_of_nil in Hin.
    - intros e [= <-]. split; [reflexivity|]. by exists w'. }
  destruct (sqs.QueueUrl r1.1.1) as [durl|].
  2: { destruct H as (w' & Hr & Ht). exists []. rewrite Hr. simpl.
       split; [exact Ht|]. split; [|intros e [=]].
       intros i o err Hin. by apply elem_of_nil in Hin. }
  set (r2 := sqs.GetQueueAttributes client (arnParams durl) r1.2) in *.
  destruct (r2.1.2) as [e2|].
  { destruct H as (w' & Hr & Ht). eexists [_]. rewrite Hr. simpl.
    split; [exact Ht|]. split; [|intros e [=]].
    intros i o err Hin. apply list_elem_of_singleton in Hin.
    discriminate Hin. }
  destruct (mjoin _) as [arn|].
  2: { destruct H as (w' & Hr & Ht). eexists [_]. rewrite Hr. simpl.
       split; [exact Ht|]. split; [|intros e [=]].
       intros i o err Hin. apply list_elem_of_singleton in Hin.
       discriminate Hin. }
  match type of H with
  | context [sqs.CreateQueue client ?p ?e] =>
    set (r3 := sqs.CreateQueue client p e) in *
  end.
  assert (Hrest : ∀ w' : World Env,
    trace w' = trace w ++
      [EvCreateQueue params r1.1.1 None;
       EvGetQueueAttributes (arnParams durl) r2.1.1 None;
       EvCreateQueue
         (queueParams (Name queue)
            {| MaxReceiveCount := MaxReceiveCountBeforeDead;
               DeadLetterTargetArn := arn |}) r3.1.1 r3.1.2] →
    ∃ rest,
      trace w' = trace w ++ EvCreateQueue params r1.1.1 None :: rest
      ∧ (∀ i o err, EvCreateQueue i o err ∈ rest →
           None = None :> option error ∧ sqs.QueueName i = Name queue)).
  { intros w' Ht. eexists [_; _]. split; [exact Ht|].
    intros i o err Hin. apply elem_of_cons in Hin as [Hin|Hin];
      [discriminate Hin|].
    apply list_elem_of_singleton in Hin. injection Hin as -> _ _.
    split; reflexivity. }
  destruct (r3.1.2) as [e3|]; [|destruct (sqs.QueueUrl r3.1.1)];
    destruct H as (w' & Hr & Ht); rewrite Hr; simpl;
    destruct (Hrest w' Ht) as (rest & Hrest1 & Hrest2);
    exists rest; (split; [exact Hrest1|]);
    (split; [exact Hrest2|intros e [=]]).
Qed.

(** C9: when the creation of the dead-letter queue fails, [Init]
    returns the error and leaves the queue as it was, so that [URL] and
    [DeadLetterQueueURL] of a fresh queue are still empty; [New]
    returns, next to the error, a non-nil queue with the requested
    name. *)
Theorem New_dead_letter_failure (name : string) (w : World Env)
        (e : error) :
  (sqs.CreateQueue client (deadLetterParams name) (env w)).1.2 = Some e →
  (∀ queue, Name queue = name →
     ∃ w', Init sqs_New queue w = Done (queue, Some e) w')
  ∧ ∃ w', New sqs_New name w
          = Done (Some {| Name := name; URL := "";
                          DeadLetterQueueURL := "" |}, Some e) w'.
Proof.
  intros Hfail.
  assert (HInit : ∀ queue, Name queue = name →
            ∃ w', Init sqs_New queue w = Done (queue, Some e) w').
  { intros queue <-. pose proof (Init_cases queue w) as H. simpl in H.
    rewrite Hfail in H. destruct H as (w' & Hr & _). by exists w'. }
  split; [exact HInit|].
  destruct (HInit {| Name := name; URL := ""; DeadLetterQueueURL := "" |}
                  eq_refl) as [w' Hr].
  exists w'. unfold New, bind. rewrite Hr. reflexivity.
Qed.

(** C6: when [Init] succeeds it has made exactly three calls: the
    creation of the dead-letter queue, the lookup of the "QueueArn"
    attribute of the queue at the URL just returned, and the creation
    of the primary queue.  The primary queue is created with exactly two
    attributes, "MessageRetentionPeriod" set to "1209600" and
    "RedrivePolicy" set to the string [GetAsAWSString] returns for the
    policy with maxReceiveCount 5 and, as deadLetterTargetArn, the
    fetched attribute. *)
Theorem Init_redrive_policy (queue queue' : Queue) (w w' : World Env) :
  Init sqs_New queue w = Done (queue', None) w' →
  ∃ o1 durl o2 arn o3 url policyString,
    let policy := {| MaxReceiveCount := 5; DeadLetterTargetArn := arn |} in
    trace w' = trace w ++
      [EvCreateQueue (deadLetterParams (Name queue)) o1 None;
       EvGetQueueAttributes
         {| sqs.GetQueueAttributes_QueueUrl := durl;
            sqs.AttributeNames := [Some "QueueArn"] |} o2 None;
       EvCreateQueue
         {| sqs.QueueName := Name queue;
            sqs.Attributes :=
              {[ "RedrivePolicy" := Some policyString;
                 "MessageRetentionPeriod" := Some "1209600" ]} |}
         o3 None]
    ∧ sqs.QueueUrl o1 = Some durl
    ∧ sqs.GetQueueAttributes_Attributes o2 !! "QueueArn" = Some (Some arn)
    ∧ (∀ w0 : World Env,
         GetAsAWSString policy w0 = Done (Some policyString, None) w0)
    ∧ policyString = (json.Marshal_RedrivePolicy policy).1
    ∧ sqs.QueueUrl o3 = Some url
    ∧ queue' = {| Name := Name queue; URL := url;
                  DeadLetterQueueURL := durl |}.
Proof.
  intros HInit.
  pose proof (Init_cases queue w) as H. simpl in H.
  destruct (sqs.CreateQueue client _ (env w)) as [[o1 err1] env1];
    simpl in H.
  destruct err1 as [e1|].
  { destruct H as (w1 & Hr & _). congruence. }
  destruct (sqs.QueueUrl o1) as [durl|] eqn:Hurl1.
  2: { destruct H as (w1 & Hr & _). congruence. }
  destruct (sqs.GetQueueAttributes client _ env1) as [[o2 err2] env2];
    simpl in H.
  destruct err2 as [e2|].
  { destruct H as (w1 & Hr & _). congruence. }
  destruct (mjoin _) as [arn|] eqn:Harn.
  2: { destruct H as (w1 & Hr & _). congruence. }
  destruct (sqs.CreateQueue client _ env2) as [[o3 err3] env3];
    simpl in H.
  destruct err3 as [e3|].
  { destruct H as (w1 & Hr & _). congruence. }
  destruct (sqs.QueueUrl o3) as [url|] eqn:Hurl3.
  2: { destruct H as (w1 & Hr & _). congruence. }
  destruct H as (w1 & Hr & Ht).
  rewrite Hr in HInit. injection HInit as <- <-.
  exists o1, durl, o2, arn, o3, url.
  eexists. simpl. split; [exact Ht|].
  split; [exact Hurl1|]. split.
  { destruct (_ !! "QueueArn") as [[a|]|]; simpl in Harn; congruence. }
  split; [intros w0; reflexivity|].
  split; [reflexivity|]. split; [exact Hurl3|reflexivity].
Qed.

End Provisioning.

(** * Sending, receiving, deleting and the processing loop *)

Section Messaging.

Context {Env Value : Type}.
Variable sqs_New : aws.Config -> sqs.SQS Env.
Variable json_Marshal : Value -> string * option error.
Variable json_Decode : string -> Value -> Value * option error.

Let client := sqs_New {| aws.Region := sqsRegion |}.

(** What [ReceiveMessage] does, by the answer of the service. *)
Lemma ReceiveMessage_cases (queue : Queue) (w : World Env) :
  let r := sqs.ReceiveMessage client (receiveParams queue) (env w) in
  ∃ w',
    ReceiveMessage sqs_New queue w
    = Done (match r.1.2 with
            | Some _ => None
            | None => mjoin (sqs.Messages r.1.1 !! 0%nat)
            end, r.1.2) w'
    ∧ trace w' = trace w ++ [EvReceiveMessage (receiveParams queue)
                                               r.1.1 r.1.2]
    ∧ env w' = r.2.
Proof.
  unfold ReceiveMessage, GetClient. fold client. go_unfold.
  unfold receiveParams.
  destruct (sqs.ReceiveMessage client _ (env w)) as [[o [e|]] env1];
    simpl.
  { eexists; split; [reflexivity|]. simpl. auto. }
  destruct (sqs.Messages o) as [|m ms]; simpl.
  - eexists; split; [reflexivity|]. simpl. auto.
  - eexists; split; [reflexivity|]. simpl. auto.
Qed.

(** What [DeleteMessageByReceiptHandle] does on a handle that is not
    nil. *)
Lemma DeleteMessageByReceiptHandle_Some (queue : Queue) (handle : string)
      (w : World Env) :
  let r := sqs.DeleteMessage client (deleteParams queue handle) (env w) in
  DeleteMessageByReceiptHandle sqs_New queue (Some handle) w
  = Done (Some r.1.1, r.1.2)
         {| env := r.2;
            trace := trace w ++ [EvDeleteMessage (deleteParams queue handle)
                                                 r.1.1 r.1.2];
            logs := logs w |}.
Proof.
  unfold DeleteMessageByReceiptHandle, GetClient. fold client. go_unfold.
  unfold deleteParams.
  destruct (sqs.DeleteMessage client _ (env w)) as [[o err] env1].
  reflexivity.
Qed.

(** What [DeleteMessage] does on a message with a receipt handle. *)
Lemma DeleteMessage_Some (queue : Queue) (m : sqs.Message)
      (handle : string) (w : World Env) :
  sqs.ReceiptHandle m = Some handle →
  let r := sqs.DeleteMessage client (deleteParams queue handle) (env w) in
  ∃ w',
    DeleteMessage sqs_New queue (Some m) w = Done (Some r.1.1, r.1.2) w'
    ∧ trace w' = trace w ++ [EvDeleteMessage (deleteParams queue handle)
                                             r.1.1 r.1.2]
    ∧ env w' = r.2.
Proof.
  intros Hh r. unfold DeleteMessage.
  unfold bind at 1. unfold deref at 1. unfold bind at 1.
  rewrite Hh, DeleteMessageByReceiptHandle_Some. fold r.
  destruct (r.1.2); go_unfold; eexists; (split; [reflexivity|]);
    simpl; auto.
Qed.

(** What one turn of the loop does, by the answers of the service, of
    the decoder and of the handler. *)
Lemma iteration_cases (processor : Processor Env Value) (body : Value)
      (w : World Env) :
  let queue := Processor_Queue processor in
  let r := sqs.ReceiveMessage client (receiveParams queue) (env w) in
  let evR := EvReceiveMessage (receiveParams queue) r.1.1 r.1.2 in
  let run := iteration sqs_New json_Decode processor body w in
  match r.1.2, mjoin (sqs.Messages r.1.1 !! 0%nat) with
  | Some _, _ | None, None =>
    ∃ w', run = Done body w' ∧ trace w' = trace w ++ [evR] ∧ env w' = r.2
  | None, Some m =>
    match sqs.Body m with
    | None => ∃ w', run = Panicked w' ∧ trace w' = trace w ++ [evR]
    | Some b =>
      let d := json_Decode b body in
      let evD := EvDecode b d.2 in
      match d.2 with
      | Some _ =>
        match sqs.MessageId m with
        | None =>
          ∃ w', run = Panicked w' ∧ trace w' = trace w ++ [evR; evD]
        | Some _ =>
          ∃ w', run = Done d.1 w' ∧ trace w' = trace w ++ [evR; evD]
                ∧ env w' = r.2
        end
      | None =>
        let h := HandleMessageBody processor queue d.1 r.2 in
        let evH := EvHandle h.1.2 in
        match h.1.2 with
        | Some _ =>
          ∃ w', run = Done h.1.1 w'
                ∧ trace w' = trace w ++ [evR; evD; evH] ∧ env w' = h.2
        | None =>
          match sqs.ReceiptHandle m with
          | None =>
            ∃ w', run = Panicked w'
                  ∧ trace w' = trace w ++ [evR; evD; evH]
          | Some handle =>
            let x := sqs.DeleteMessage client (deleteParams queue handle)
                                       h.2 in
            ∃ w', run = Done h.1.1 w'
                  ∧ trace w' = trace w ++
                      [evR; evD; evH;
                       EvDeleteMessage (deleteParams queue handle)
                                       x.1.1 x.1.2]
                  ∧ env w' = x.2
          end
        end
      end
    end
  end.
Proof.
  unfold iteration, ReceiveMessage, UnmarshalMessageBody, DeleteMessage,
    DeleteMessageByReceiptHandle, GetClient.
  fold client. go_unfold. unfold receiveParams, deleteParams.
  set (queue := Processor_Queue processor).
  destruct (sqs.ReceiveMessage client _ (env w)) as [[o [e|]] env1];
    simpl.
  { eexists; split; [reflexivity|]. simpl. auto. }
  destruct (sqs.Messages o) as [|[m|] ms]; simpl;
    try (eexists; split; [reflexivity|]; simpl; by auto).
  destruct (sqs.Body m) as [b|]; simpl;
    try (eexists; split; [reflexivity|]; simpl; by auto).
  destruct (json_Decode b body) as [v [e|]]; simpl.
  { destruct (sqs.MessageId m); simpl;
      eexists; (split; [reflexivity|]); simpl;
      rewrite <- ?app_assoc; auto. }
  destruct (HandleMessageBody processor queue v env1) as [[v' [e|]] env2];
    simpl.
  { eexists; split; [reflexivity|]. simpl. rewrite <- !app_assoc. auto. }
  destruct (sqs.ReceiptHandle m) as [handle|]; simpl.
  2: { eexists; split; [reflexivity|]. simpl. rewrite <- !app_assoc.
       auto. }
  destruct (sqs.DeleteMessage client _ env2) as [[o' [e|]] env3]; simpl;
    eexists; (split; [reflexivity|]); simpl; rewrite <- !app_assoc; auto.
Qed.

Lemma polls_app (l1 l2 : list Event) :
  polls (l1 ++ l2) = (polls l1 + polls l2)%nat.
Proof. unfold polls. by rewrite filter_app, length_app. Qed.

Lemma first_message_delivered (o : sqs.ReceiveMessageOutput)
      (m : sqs.Message) :
  mjoin (sqs.Messages o !! 0%nat) = Some m → Some m ∈ sqs.Messages o.
Proof.
  destruct (sqs.Messages o) as [|[m'|] ms]; simpl; try discriminate.
  intros [= ->]. apply elem_of_cons. by left.
Qed.





(** Turn [n + 1] follows turn [n], whatever happened before. *)
Lemma loop_snoc (n : nat) (processor : Processor Env Value)
      (body : Value) (w : World Env) :
  loop sqs_New json_Decode (S n) processor body w
  = (let* b := loop sqs_New json_Decode n processor body in
     iteration sqs_New json_Decode processor b) w.
Proof.
  revert body w. induction n as [|n IH]; intros body w.
  - simpl. unfold bind, ret.
    by destruct (iteration sqs_New json_Decode processor body w).
  - change (loop sqs_New json_Decode (S (S n)) processor body w)
      with ((let* b := iteration sqs_New json_Decode processor body in
             loop sqs_New json_Decode (S n) processor b) w).
    unfold bind at 1.
    destruct (iteration sqs_New json_Decode processor body w)
      as [b1 w1|w1] eqn:E1.
    + rewrite IH. simpl. unfold bind. by rewrite E1.
    + simpl. unfold bind. by rewrite E1.
Qed.

(** C8: when marshalling the payload fails, [SendMessage] returns that
    error and makes no call to the service; when it succeeds, the
    marshalled body is sent to the URL of the queue, and [SendMessage]
    returns the response of the service together with its error, which
    is nil when the message was accepted. *)
Theorem SendMessage_outcomes (queue : Queue) (payload : Value)
        (w : World Env) :
  let m := json_Marshal payload in
  let send := SendMessage sqs_New json_Marshal queue payload w in
  (∀ e, m.2 = Some e →
     ∃ w', send = Done (None, Some e) w'
           ∧ trace w' = trace w ∧ env w' = env w)
  ∧ (m.2 = None →
     let params := {| sqs.MessageBody := m.1;
                      sqs.SendMessage_QueueUrl := URL queue |} in
     let r := sqs.SendMessage client params (env w) in
     ∃ w', send = Done (Some r.1.1, r.1.2) w'
           ∧ trace w' = trace w ++ [EvSendMessage params r.1.1 r.1.2]
           ∧ env w' = r.2).
Proof.
  unfold SendMessage, GetClient. fold client.
  destruct (json_Marshal payload) as [msg [e|]]; simpl; split.
  - intros e' [= <-]. go_unfold. eexists; split; [reflexivity|]. auto.
  - discriminate.
  - discriminate.
  - intros _. go_unfold.
    destruct (sqs.SendMessage client _ (env w)) as [[o [e|]] env1];
      simpl; eexists; (split; [reflexivity|]); auto.
Qed.

(** C5: [ReceiveMessage] returns the error of the service, so it
    returns an error only when the service call failed; when the
    service answers without error and with no message, it returns a
    nil message and a nil error, and the turn of the loop ends after
    that one call: nothing is decoded, handled or deleted. *)
Theorem ReceiveMessage_no_message (processor : Processor Env Value)
        (body : Value) (w : World Env) :
  let queue := Processor_Queue processor in
  let r := sqs.ReceiveMessage client (receiveParams queue) (env w) in
  (∃ m w', ReceiveMessage sqs_New queue w = Done (m, r.1.2) w')
  ∧ (r.1.2 = None → sqs.Messages r.1.1 = [] →
     (∃ w', ReceiveMessage sqs_New queue w = Done (None, None) w')
     ∧ ∃ w', iteration sqs_New json_Decode processor body w
             = Done body w'
             ∧ trace w' = trace w ++
                 [EvReceiveMessage (receiveParams queue) r.1.1 None]).
Proof.
  intros queue r. split.
  - destruct (ReceiveMessage_cases queue w) as (w' & Hr & _).
    by eexists _, w'.
  - intros Herr Hnone. split.
    + destruct (ReceiveMessage_cases queue w) as (w' & Hr & _).
      fold r in Hr. rewrite Herr, Hnone in Hr. by exists w'.
    + pose proof (iteration_cases processor body w) as H. simpl in H.
      fold queue r in H. rewrite Herr, Hnone in H. simpl in H.
      destruct H as (w' & Hr & Ht & _). by exists w'.
Qed.

(** C10: neither [DeleteMessage] nor [DeleteMessageByReceiptHandle]
    checks for nil: on a nil message, or on a nil receipt handle, they
    panic before any call to the service.  On a message with a receipt
    handle (whatever its other fields) nothing is dereferenced in vain,
    and the service is asked once to delete, at the URL of the queue,
    exactly that receipt handle. *)
Theorem DeleteMessage_receipt_handle (queue : Queue) (m : sqs.Message)
        (handle : string) (w : World Env) :
  sqs.ReceiptHandle m = Some handle →
  let params := {| sqs.DeleteMessage_QueueUrl := URL queue;
                   sqs.DeleteMessage_ReceiptHandle := handle |} in
  let r := sqs.DeleteMessage client params (env w) in
  (∃ w', DeleteMessage sqs_New queue (Some m) w
         = Done (Some r.1.1, r.1.2) w'
         ∧ trace w' = trace w ++ [EvDeleteMessage params r.1.1 r.1.2])
  ∧ (∃ w', DeleteMessageByReceiptHandle sqs_New queue
             (sqs.ReceiptHandle m) w
           = Done (Some r.1.1, r.1.2) w'
           ∧ trace w' = trace w ++ [EvDeleteMessage params r.1.1 r.1.2])
  ∧ DeleteMessage sqs_New queue None w = Panicked w
  ∧ (∀ m', sqs.ReceiptHandle m' = None →
           DeleteMessage sqs_New queue (Some m') w = Panicked w)
  ∧ DeleteMessageByReceiptHandle sqs_New queue None w = Panicked w.
Proof.
  intros Hh params r. split; [|split; [|split; [|split]]].
  - destruct (DeleteMessage_Some queue m handle w Hh) as (w' & Hr & Ht & _).
    by exists w'.
  - rewrite Hh, DeleteMessageByReceiptHandle_Some. eexists.
    split; reflexivity.
  - reflexivity.
  - intros m' Hn. unfold DeleteMessage, DeleteMessageByReceiptHandle.
    go_unfold. by rewrite Hn.
  - reflexivity.
Qed.




End Messaging.

(** * Further properties of provisioning *)

Section InitOutcomes.

Context {Env : Type}.
Variable sqs_New : aws.Config -> sqs.SQS Env.

Let client := sqs_New {| aws.Region := sqsRegion |}.

(** The run of [Init], with the world it leaves, by the answers of the
    service. *)
Lemma Init_run (queue : Queue) (w : World Env) :
  let r1 :=
    sqs.CreateQueue client (deadLetterParams (Name queue)) (env w) in
  let ev1 :=
    EvCreateQueue (deadLetterParams (Name queue)) r1.1.1 r1.1.2 in
  let entry l t := {| level := l; text := t |} in
  Init sqs_New queue w =
  match r1.1.2, sqs.QueueUrl r1.1.1 with
  | Some e, _ =>
    Done (queue, Some e)
         {| env := r1.2; trace := trace w ++ [ev1];
            logs := logs w ++
              [entry ErrorLevel "Createing the dead letter queue"] |}
  | None, None =>
    Panicked {| env := r1.2; trace := trace w ++ [ev1]; logs := logs w |}
  | None, Some durl =>
    let queue1 := {| Name := Name queue; URL := URL queue;
                     DeadLetterQueueURL := durl |} in
    let r2 := sqs.GetQueueAttributes client (arnParams durl) r1.2 in
    let ev2 := EvGetQueueAttributes (arnParams durl) r2.1.1 r2.1.2 in
    let logs1 :=
      logs w ++ [entry InfoLevel "Dead Letter Queue initialized"] in
    match r2.1.2,
          mjoin (sqs.GetQueueAttributes_Attributes r2.1.1 !! "QueueArn")
    with
    | Some e, _ =>
      Done (queue1, Some e)
           {| env := r2.2; trace := trace w ++ [ev1; ev2];
              logs := logs1 ++
                [entry ErrorLevel "Getting queue attributes"] |}
    | None, None =>
      Panicked {| env := r2.2; trace := trace w ++ [ev1; ev2];
                  logs := logs1 |}
    | None, Some arn =>
      let policy := {| MaxReceiveCount := MaxReceiveCountBeforeDead;
                       DeadLetterTargetArn := arn |} in
      let r3 :=
        sqs.CreateQueue client (queueParams (Name queue) policy) r2.2 in
      let ev3 :=
        EvCreateQueue (queueParams (Name queue) policy) r3.1.1 r3.1.2 in
      match r3.1.2, sqs.QueueUrl r3.1.1 with
      | Some e, _ =>
        Done (queue1, Some e)
             {| env := r3.2; trace := trace w ++ [ev1; ev2; ev3];
                logs := logs1 ++ [entry ErrorLevel "Createing the queue"] |}
      | None, None =>
        Panicked {| env := r3.2; trace := trace w ++ [ev1; ev2; ev3];
                    logs := logs1 |}
      | None, Some url =>
        Done ({| Name := Name queue; URL := url;
                 DeadLetterQueueURL := durl |}, None)
             {| env := r3.2; trace := trace w ++ [ev1; ev2; ev3];
                logs := logs1 ++ [entry InfoLevel "Queue initialized"] |}
      end
    end
  end.
Proof.
  unfold Init, GetAttributesByQueueURL, GetAsAWSString, GetClient.
  fold client. go_unfold.
  unfold deadLetterParams, arnParams, queueParams. simpl.
  destruct (sqs.CreateQueue client _ (env w)) as [[o1 [e1|]] env1]; simpl.
  { reflexivity. }
  destruct (sqs.QueueUrl o1) as [durl|]; simpl; [|reflexivity].
  destruct (sqs.GetQueueAttributes client _ env1) as [[o2 [e2|]] env2];
    simpl.
  { by rewrite <- !app_assoc. }
  destruct (mjoin _) as [arn|]; simpl.
  2: { by rewrite <- !app_assoc. }
  destruct (sqs.CreateQueue client _ env2) as [[o3 [e3|]] env3]; simpl.
  { by rewrite <- !app_assoc. }
  destruct (sqs.QueueUrl o3) as [url|]; simpl; by rewrite <- !app_assoc.
Qed.

(** Case analysis on a run of [Init]. *)
Ltac init_cases queue w H :=
  pose proof (Init_run queue w) as H; cbv zeta in H;
  destruct (sqs.CreateQueue client (deadLetterParams (Name queue)) (env w))
    as [[?o1 [?e1|]] ?env1] eqn:?E1; simpl in H;
  [|destruct (sqs.QueueUrl o1) as [?durl|] eqn:?Hurl1;
    [match type of H with
     | context [sqs.GetQueueAttributes client ?p ?e] =>
       destruct (sqs.GetQueueAttributes client p e)
         as [[?o2 [?e2|]] ?env2] eqn:?E2; simpl in H;
       [|destruct (mjoin (sqs.GetQueueAttributes_Attributes o2 !! "QueueArn"))
           as [?arn|] eqn:?Harn;
         [match type of H with
          | context [sqs.CreateQueue client ?p ?e] =>
            destruct (sqs.CreateQueue client p e)
              as [[?o3 [?e3|]] ?env3] eqn:?E3; simpl in H;
            [|destruct (sqs.QueueUrl o3) as [?url|] eqn:?Hurl3]
          end|]]
     end|]].

(** X1: when [Init] returns an error, the queue keeps its name and its
    [URL], and either is unchanged or has, as [DeadLetterQueueURL], the
    URL of the dead-letter queue that was created: a failure of a later
    call does not undo the creation.  The error returned is the error of
    the last call made, and every call before it succeeded. *)
Theorem Init_failure_keeps_dead_letter_queue (queue queue' : Queue)
        (e : error) (w w' : World Env) :
  Init sqs_New queue w = Done (queue', Some e) w' →
  let r1 :=
    sqs.CreateQueue client (deadLetterParams (Name queue)) (env w) in
  Name queue' = Name queue ∧ URL queue' = URL queue
  ∧ (queue' = queue
     ∨ r1.1.2 = None
       ∧ sqs.QueueUrl r1.1.1 = Some (DeadLetterQueueURL queue'))
  ∧ ∃ l ev,
      trace w' = trace w ++ l ++ [ev] ∧ event_error ev = Some e
      ∧ Forall (λ ev, event_error ev = None) l.
Proof.
  intros HInit. init_cases queue w H; rewrite H in HInit;
    try discriminate HInit; injection HInit as <- <- <-; simpl;
    (split; [reflexivity|]); (split; [reflexivity|]);
    (split; [auto|]).
  - eexists [], _. split; [reflexivity|]. split; [reflexivity|].
    constructor.
  - eexists [_], _. split; [reflexivity|]. split; [reflexivity|].
    by repeat constructor.
  - eexists [_; _], _. split; [reflexivity|]. split; [reflexivity|].
    by repeat constructor.
Qed.

(** X2: [Init] panics exactly when a call answered without an error
    and without the field [Init] dereferences next: the URL of the
    created dead-letter queue, the "QueueArn" attribute (absent or
    nil), or the URL of the created queue. *)
Theorem Init_panic_condition (queue : Queue) (w : World Env) :
  let r1 :=
    sqs.CreateQueue client (deadLetterParams (Name queue)) (env w) in
  panicked (Init sqs_New queue w) =
  match r1.1.2, sqs.QueueUrl r1.1.1 with
  | Some _, _ => false
  | None, None => true
  | None, Some durl =>
    let r2 := sqs.GetQueueAttributes client (arnParams durl) r1.2 in
    match r2.1.2,
          mjoin (sqs.GetQueueAttributes_Attributes r2.1.1 !! "QueueArn")
    with
    | Some _, _ => false
    | None, None => true
    | None, Some arn =>
      let policy := {| MaxReceiveCount := MaxReceiveCountBeforeDead;
                       DeadLetterTargetArn := arn |} in
      let r3 :=
        sqs.CreateQueue client (queueParams (Name queue) policy) r2.2 in
      match r3.1.2, sqs.QueueUrl r3.1.1 with
      | None, None => true
      | _, _ => false
      end
    end
  end.
Proof.
  cbv zeta. init_cases queue w H; rewrite H; simpl;
    rewrite ?Hurl1; simpl; rewrite ?E2; simpl; rewrite ?Harn; simpl;
    rewrite ?E3; simpl; rewrite ?Hurl3; reflexivity.
Qed.

(** X3: the name of the dead-letter queue is never the name of the
    queue; [Init] makes at least one call and at most three, and only
    these: the creation, with a retention of 1209600 seconds, of a
    queue of one of the two names, and the lookup of "QueueArn".  It
    neither sends, receives nor deletes. *)
Theorem Init_calls (queue : Queue) (w : World Env) :
  Name queue +:+ deadLetterQueueSuffix ≠ Name queue
  ∧ ∃ l,
      trace (world_of (Init sqs_New queue w)) = trace w ++ l
      ∧ (1 <= length l <= 3)%nat
      ∧ Forall (is_provisioning (Name queue)) l.
Proof.
  split.
  { intros Heq. apply (f_equal String.length) in Heq.
    rewrite length_append in Heq. simpl in Heq. lia. }
  assert (Hd : ∀ o err, is_provisioning (Name queue)
                 (EvCreateQueue (deadLetterParams (Name queue)) o err)).
  { intros o err. split; [by right|]. apply lookup_singleton_eq. }
  assert (Hq : ∀ p o err, is_provisioning (Name queue)
                 (EvCreateQueue (queueParams (Name queue) p) o err)).
  { intros p o err. split; [by left|]. unfold queueParams.
    cbn [sqs.Attributes]. rewrite lookup_insert_ne by done.
    apply lookup_singleton_eq. }
  assert (Hg : ∀ durl o err, is_provisioning (Name queue)
                 (EvGetQueueAttributes (arnParams durl) o err))
    by reflexivity.
  init_cases queue w H; rewrite H; cbn [world_of trace];
    first [ eexists [_]; split; [reflexivity|]
          | eexists [_; _]; split; [reflexivity|]
          | eexists [_; _; _]; split; [reflexivity|] ];
    (split; [simpl; lia|]);
    repeat (constructor; [first [apply Hd | apply Hq | apply Hg]|]);
    constructor.
Qed.

(** X4: the log of [Init]: without an error, the two entries
    "Dead Letter Queue initialized" and "Queue initialized", both at
    level Info; with an error, one entry at level Error, written last,
    after entries at level Info only. *)
Theorem Init_logs (queue queue' : Queue) (err : option error)
        (w w' : World Env) :
  Init sqs_New queue w = Done (queue', err) w' →
  ∃ ls,
    logs w' = logs w ++ ls
    ∧ match err with
      | None =>
        ls = [{| level := InfoLevel;
                 text := "Dead Letter Queue initialized" |};
              {| level := InfoLevel; text := "Queue initialized" |}]
      | Some _ =>
        ∃ pre msg,
          ls = pre ++ [{| level := ErrorLevel; text := msg |}]
          ∧ Forall (λ entry, level entry = InfoLevel) pre
      end.
Proof.
  intros HInit. init_cases queue w H; rewrite H in HInit;
    try discriminate HInit; injection HInit as <- <- <-; simpl.
  - eexists [_]. split; [reflexivity|]. eexists [], _.
    split; [reflexivity|]. constructor.
  - eexists [_; _]. split; [by rewrite <- app_assoc|].
    eexists [_], _. split; [reflexivity|]. by repeat constructor.
  - eexists [_; _]. split; [by rewrite <- app_assoc|].
    eexists [_], _. split; [reflexivity|]. by repeat constructor.
  - eexists [_; _]. split; [by rewrite <- app_assoc|]. reflexivity.
Qed.

(** X5: whenever [New] returns, the queue it returns is not nil, has
    the requested name and is what [Init] made of the queue with that
    name and empty URLs.  With an error its [URL] is still empty;
    without one, [DeadLetterQueueURL] and [URL] are the URLs the
    service returned for the first and for the second creation. *)
Theorem New_result (name : string) (q : option Queue)
        (err : option error) (w w' : World Env) :
  New sqs_New name w = Done (q, err) w' →
  ∃ queue,
    q = Some queue ∧ Name queue = name
    ∧ Init sqs_New {| Name := name; URL := ""; DeadLetterQueueURL := "" |} w
      = Done (queue, err) w'
    ∧ match err with
      | Some _ => URL queue = ""
      | None =>
        ∃ o1 i2 o2 i3 o3,
          trace w' = trace w ++
            [EvCreateQueue (deadLetterParams name) o1 None;
             EvGetQueueAttributes i2 o2 None; EvCreateQueue i3 o3 None]
          ∧ sqs.QueueUrl o1 = Some (DeadLetterQueueURL queue)
          ∧ sqs.QueueUrl o3 = Some (URL queue)
      end.
Proof.
  unfold New, bind. intros HNew.
  set (queue0 := {| Name := name; URL := ""; DeadLetterQueueURL := "" |})
    in *.
  init_cases queue0 w H; rewrite H in HNew |- *;
    try discriminate HNew; injection HNew as <- <- <-; simpl.
  1, 2, 3: by eexists; repeat split.
  eexists; repeat split. by eexists _, _, _, _, _.
Qed.

(** X6: [GetAttributesByQueueURL] makes one call, for the URL and the
    attribute names it is given (not for the URL of the receiver),
    returns the answer and the error of the service as they are, and
    writes one log entry, at level Error, exactly when the call
    failed. *)
Theorem GetAttributesByQueueURL_pass_through (queue : Queue)
        (url : string) (attributeNames : list (option string))
        (w : World Env) :
  let params := {| sqs.GetQueueAttributes_QueueUrl := url;
                   sqs.AttributeNames := attributeNames |} in
  let r := sqs.GetQueueAttributes client params (env w) in
  ∃ w',
    GetAttributesByQueueURL sqs_New queue url attributeNames w
    = Done (r.1.1, r.1.2) w'
    ∧ env w' = r.2
    ∧ trace w' = trace w ++ [EvGetQueueAttributes params r.1.1 r.1.2]
    ∧ logs w' = logs w ++
        match r.1.2 with
        | Some _ => [{| level := ErrorLevel;
                        text := "Getting queue attributes" |}]
        | None => []
        end.
Proof.
  unfold GetAttributesByQueueURL, GetClient. fold client. go_unfold.
  destruct (sqs.GetQueueAttributes client _ (env w)) as [[o [e|]] env1];
    simpl; eexists; (split; [reflexivity|]); simpl;
    rewrite ?app_nil_r; auto.
Qed.

(** X7: [Init] reads nothing of the queue but its name: on two queues
    of the same name it makes the same calls and leaves the same world,
    and when it succeeds on one it succeeds on the other with the same
    resulting queue, so that the URLs the queue held before are
    overwritten. *)
Theorem Init_reads_only_Name (queue1 queue2 : Queue) (w : World Env) :
  Name queue1 = Name queue2 →
  world_of (Init sqs_New queue1 w) = world_of (Init sqs_New queue2 w)
  ∧ ∀ queue' w',
      Init sqs_New queue1 w = Done (queue', None) w' →
      Init sqs_New queue2 w = Done (queue', None) w'.
Proof.
  intros Hname. pose proof (Init_run queue2 w) as H2. cbv zeta in H2.
  rewrite <- Hname in H2.
  init_cases queue1 w H1; rewrite H1, H2; simpl;
    rewrite ?Hurl1; simpl; rewrite ?E2; simpl; rewrite ?Harn; simpl;
    rewrite ?E3; simpl; rewrite ?Hurl3;
    (split; [reflexivity|]); intros queue' w' Hrun;
    try discriminate Hrun.
  exact Hrun.
Qed.

End InitOutcomes.

(** * Further properties of receiving and of the loop *)

Section Turns.

Context {Env Value : Type}.
Variable sqs_New : aws.Config -> sqs.SQS Env.
Variable json_Decode : string -> Value -> Value * option error.

Let client := sqs_New {| aws.Region := sqsRegion |}.

(** The run of one turn of the loop, with the world it leaves, by the
    answers of the service, of the decoder and of the handler. *)
Lemma iteration_run (processor : Processor Env Value) (body : Value)
      (w : World Env) :
  let queue := Processor_Queue processor in
  let r := sqs.ReceiveMessage client (receiveParams queue) (env w) in
  let evR := EvReceiveMessage (receiveParams queue) r.1.1 r.1.2 in
  let entry l t := {| level := l; text := t |} in
  let logs0 := logs w ++ [entry InfoLevel "Polling queue"] in
  iteration sqs_New json_Decode processor body w =
  match r.1.2, mjoin (sqs.Messages r.1.1 !! 0%nat) with
  | Some _, _ =>
    Done body
         {| env := r.2; trace := trace w ++ [evR];
            logs := logs0 ++
              [entry ErrorLevel "Receiving message from queue"] |}
  | None, None =>
    Done body {| env := r.2; trace := trace w ++ [evR]; logs := logs0 |}
  | None, Some m =>
    match sqs.Body m with
    | None =>
      Panicked {| env := r.2; trace := trace w ++ [evR]; logs := logs0 |}
    | Some b =>
      let d := json_Decode b body in
      let evD := EvDecode b d.2 in
      match d.2 with
      | Some _ =>
        match sqs.MessageId m with
        | None =>
          Panicked {| env := r.2; trace := trace w ++ [evR; evD];
                      logs := logs0 |}
        | Some _ =>
          Done d.1
               {| env := r.2; trace := trace w ++ [evR; evD];
                  logs := logs0 ++
                    [entry ErrorLevel "Unmarshal messageBody";
                     entry WarningLevel "Error unmarshalling message"] |}
        end
      | None =>
        let h := HandleMessageBody processor queue d.1 r.2 in
        let evH := EvHandle h.1.2 in
        match h.1.2 with
        | Some _ =>
          Done h.1.1
               {| env := h.2; trace := trace w ++ [evR; evD; evH];
                  logs := logs0 ++
                    [entry WarningLevel "Error processing message"] |}
        | None =>
          match sqs.ReceiptHandle m with
          | None =>
            Panicked {| env := h.2; trace := trace w ++ [evR; evD; evH];
                        logs := logs0 |}
          | Some handle =>
            let x := sqs.DeleteMessage client (deleteParams queue handle)
                                       h.2 in
            Done h.1.1
                 {| env := x.2;
                    trace := trace w ++
                      [evR; evD; evH;
                       EvDeleteMessage (deleteParams queue handle)
                                       x.1.1 x.1.2];
                    logs := logs0 ++
                      match x.1.2 with
                      | Some _ =>
                        [entry ErrorLevel "Deleting message from queue";
                         entry WarningLevel "Error deleting queue message"]
                      | None =>
                        [entry InfoLevel "Message deleted from queue"]
                      end |}
          end
        end
      end
    end
  end.
Proof.
  unfold iteration, ReceiveMessage, UnmarshalMessageBody, DeleteMessage,
    DeleteMessageByReceiptHandle, GetClient.
  fold client. go_unfold. unfold receiveParams, deleteParams.
  set (queue := Processor_Queue processor).
  destruct (sqs.ReceiveMessage client _ (env w)) as [[o [e|]] env1];
    simpl; [reflexivity|].
  destruct (sqs.Messages o) as [|[m|] ms]; simpl;
    rewrite ?app_nil_r; try reflexivity.
  destruct (sqs.Body m) as [b|]; simpl; [|reflexivity].
  destruct (json_Decode b body) as [v [e|]]; simpl.
  { destruct (sqs.MessageId m); simpl; by rewrite <- ?app_assoc. }
  destruct (HandleMessageBody processor queue v env1) as [[v' [e|]] env2];
    simpl.
  { by rewrite <- !app_assoc. }
  destruct (sqs.ReceiptHandle m) as [handle|]; simpl.
  2: { by rewrite <- !app_assoc. }
  destruct (sqs.DeleteMessage client _ env2) as [[o' [e|]] env3]; simpl;
    by rewrite <- !app_assoc.
Qed.

(** Case analysis on a turn of the loop. *)
Ltac turn_cases processor body w H :=
  pose proof (iteration_run processor body w) as H; cbv zeta in H;
  destruct (sqs.ReceiveMessage client
              (receiveParams (Processor_Queue processor)) (env w))
    as [[?o [?e|]] ?env1] eqn:?ER; simpl in H;
  [|destruct (mjoin (sqs.Messages o !! 0%nat)) as [?m|] eqn:?Hm;
    [destruct (sqs.Body m) as [?b|] eqn:?Hb;
     [destruct (json_Decode b body) as [?v [?e|]] eqn:?ED; simpl in H;
      [destruct (sqs.MessageId m) as [?id|] eqn:?Hid
      |match type of H with
       | context [HandleMessageBody processor ?q ?v ?e] =>
         destruct (HandleMessageBody processor q v e)
           as [[?v' [?e|]] ?env2] eqn:?EH; simpl in H;
         [|destruct (sqs.ReceiptHandle m) as [?handle|] eqn:?Hh;
           [match type of H with
            | context [sqs.DeleteMessage client ?p ?e] =>
              destruct (sqs.DeleteMessage client p e)
                as [[?o' ?err] ?env3] eqn:?EX; simpl in H
            end|]]
       end]|]|]].

(** X8: [ReceiveMessage] makes one call, asking at the URL of the
    queue for at most 1 message with a visibility timeout of 600 and a
    wait time of 20 seconds; it never panics and returns the error of
    the service.  It returns a message exactly when the call succeeded
    and the first message of the answer is not nil, and then that first
    message, whatever else the answer holds. *)
Theorem ReceiveMessage_first_message (queue : Queue) (w : World Env) :
  let params := {| sqs.ReceiveMessage_QueueUrl := URL queue;
                   sqs.MaxNumberOfMessages := 1;
                   sqs.VisibilityTimeout := 600;
                   sqs.WaitTimeSeconds := 20 |} in
  let r := sqs.ReceiveMessage client params (env w) in
  ∃ message w',
    ReceiveMessage sqs_New queue w = Done (message, r.1.2) w'
    ∧ trace w' = trace w ++ [EvReceiveMessage params r.1.1 r.1.2]
    ∧ env w' = r.2
    ∧ ∀ m, message = Some m
           ↔ r.1.2 = None ∧ ∃ others, sqs.Messages r.1.1 = Some m :: others.
Proof.
  unfold ReceiveMessage, GetClient. fold client. go_unfold.
  destruct (sqs.ReceiveMessage client _ (env w)) as [[o [e|]] env1];
    simpl; [|destruct (sqs.Messages o) as [|m' ms]; simpl];
    eexists _, _; (split; [reflexivity|]); simpl;
    (split; [reflexivity|]); (split; [reflexivity|]); intros m; split.
  - discriminate.
  - by intros [? _].
  - discriminate.
  - by intros [_ [? ?]].
  - intros ->. split; [reflexivity|]. by exists ms.
  - by intros [_ [? [= -> _]]].
Qed.

(** X9: [UnmarshalMessageBody] never calls the service.  On a nil
    message or a nil body it panics before decoding.  Otherwise it
    decodes the body once and returns the destination as the decoder
    left it, next to the decoder's error; a failure is logged at level
    Error, and logging it panics when the message has no identifier. *)
Theorem UnmarshalMessageBody_outcomes (message : option sqs.Message)
        (v : Value) (w : World Env) :
  UnmarshalMessageBody json_Decode message v w =
  match message ≫= sqs.Body with
  | None => Panicked w
  | Some b =>
    let d := json_Decode b v in
    let w1 := {| env := env w; trace := trace w ++ [EvDecode b d.2];
                 logs := logs w |} in
    match d.2, message ≫= sqs.MessageId with
    | None, _ => Done (d.1, None) w1
    | Some e, None => Panicked w1
    | Some e, Some _ =>
      Done (d.1, Some e)
           {| env := env w; trace := trace w ++ [EvDecode b d.2];
              logs := logs w ++
                [{| level := ErrorLevel;
                    text := "Unmarshal messageBody" |}] |}
    end
  end.
Proof.
  unfold UnmarshalMessageBody. go_unfold.
  destruct message as [m|]; simpl; [|reflexivity].
  destruct (sqs.Body m) as [b|]; simpl; [|reflexivity].
  destruct (json_Decode b v) as [v' [e|]]; simpl; [|reflexivity].
  destruct (sqs.MessageId m); reflexivity.
Qed.

(** X10: a turn in which the receive call fails, or whose answer has
    no first message (none at all, or a nil one), ends after that one
    call with the destination untouched: nothing is decoded, handled or
    deleted. *)
Theorem iteration_without_message (processor : Processor Env Value)
        (body : Value) (w : World Env) :
  let queue := Processor_Queue processor in
  let r := sqs.ReceiveMessage client (receiveParams queue) (env w) in
  is_Some r.1.2 ∨ mjoin (sqs.Messages r.1.1 !! 0%nat) = None →
  ∃ w',
    iteration sqs_New json_Decode processor body w = Done body w'
    ∧ trace w' = trace w ++ [EvReceiveMessage (receiveParams queue)
                                               r.1.1 r.1.2]
    ∧ env w' = r.2.
Proof.
  cbv zeta. intros Hidle.
  turn_cases processor body w H; simpl in Hidle;
    try (eexists; split; [exact H|]; by split).
  all: destruct Hidle as [[? [=]]|Hn]; rewrite Hm in Hn; discriminate Hn.
Qed.

(** X11: the log of a turn that runs to its end is a function of its
    calls: after "Polling queue", a failed receive gives one entry (at
    level Error), a failed decode two (Error, then Warning), a failed
    handler one (Warning), a failed delete two (Error, then Warning)
    and a successful delete one (Info). *)
Theorem iteration_logs (processor : Processor Env Value)
        (body body' : Value) (w w' : World Env) :
  iteration sqs_New json_Decode processor body w = Done body' w' →
  ∃ l,
    trace w' = trace w ++ l
    ∧ logs w' = logs w ++ {| level := InfoLevel; text := "Polling queue" |}
                       :: flat_map event_logs l.
Proof.
  intros Hrun. turn_cases processor body w H; rewrite H in Hrun;
    try discriminate Hrun; injection Hrun as <- <-; simpl.
  all: try match goal with err : option error |- _ => destruct err end.
  all: eexists; (split; [reflexivity|]); simpl;
    by rewrite <- ?app_assoc, ?app_nil_r.
Qed.

(** X12: a turn panics exactly when the message received has no
    body, or its body fails to decode and it has no identifier, or it
    was decoded and handled with success and has no receipt handle.  A
    message without identifier that decodes, or without receipt handle
    whose handler fails, does not make the turn panic. *)
Theorem iteration_panic_condition (processor : Processor Env Value)
        (body : Value) (w : World Env) :
  let queue := Processor_Queue processor in
  let r := sqs.ReceiveMessage client (receiveParams queue) (env w) in
  panicked (iteration sqs_New json_Decode processor body w) =
  match r.1.2, mjoin (sqs.Messages r.1.1 !! 0%nat) with
  | Some _, _ | None, None => false
  | None, Some m =>
    match sqs.Body m with
    | None => true
    | Some b =>
      let d := json_Decode b body in
      match d.2 with
      | Some _ => bool_decide (sqs.MessageId m = None)
      | None =>
        match (HandleMessageBody processor queue d.1 r.2).1.2 with
        | Some _ => false
        | None => bool_decide (sqs.ReceiptHandle m = None)
        end
      end
    end
  end.
Proof.
  cbv zeta. turn_cases processor body w H; rewrite H; simpl;
    rewrite ?Hm, ?Hb; simpl; rewrite ?ED; simpl; rewrite ?Hid, ?EH; simpl;
    rewrite ?Hh; reflexivity.
Qed.

(** X13: a failure of the delete request, after the message was
    decoded and handled with success, ends the turn like a success:
    the turn returns the destination as the handler left it, in the
    environment the delete call left, and the loop goes on with the
    next turn from there. *)
Theorem iteration_delete_failure (processor : Processor Env Value)
        (body : Value) (w : World Env) (m : sqs.Message)
        (b handle : string) (e : error) :
  let queue := Processor_Queue processor in
  let r := sqs.ReceiveMessage client (receiveParams queue) (env w) in
  let d := json_Decode b body in
  let h := HandleMessageBody processor queue d.1 r.2 in
  let x := sqs.DeleteMessage client (deleteParams queue handle) h.2 in
  r.1.2 = None →
  sqs.Messages r.1.1 !! 0%nat = Some (Some m) →
  sqs.Body m = Some b → sqs.ReceiptHandle m = Some handle →
  d.2 = None → h.1.2 = None → x.1.2 = Some e →
  ∃ w',
    iteration sqs_New json_Decode processor body w = Done h.1.1 w'
    ∧ env w' = x.2
    ∧ trace w' = trace w ++
        [EvReceiveMessage (receiveParams queue) r.1.1 None;
         EvDecode b None; EvHandle None;
         EvDeleteMessage (deleteParams queue handle) x.1.1 (Some e)]
    ∧ ∀ n, loop sqs_New json_Decode (S n) processor body w
           = loop sqs_New json_Decode n processor h.1.1 w'.
Proof.
  cbv zeta. intros Hr Hm0 Hb0 Hh0 Hd Hh Hx.
  pose proof (iteration_run processor body w) as H. cbv zeta in H.
  rewrite Hr, Hm0 in H. simpl in H. rewrite Hb0, Hd, Hh, Hh0, Hx in H.
  eexists. split; [exact H|]. split; [reflexivity|].
  split; [reflexivity|].
  intros n. simpl. unfold bind. by rewrite H.
Qed.

(** ** The whole run *)

(** A property of the calls of a turn that holds of no call at all and
    of two runs of calls put together holds of the calls of any number
    of turns. *)
Lemma loop_events (P : list Event → Prop)
      (processor : Processor Env Value) :
  P [] → (∀ l1 l2, P l1 → P l2 → P (l1 ++ l2)) →
  (∀ body w, ∃ l,
     trace (world_of (iteration sqs_New json_Decode processor body w))
     = trace w ++ l ∧ P l) →
  ∀ n body w, ∃ l,
    trace (world_of (loop sqs_New json_Decode n processor body w))
    = trace w ++ l ∧ P l.
Proof.
  intros Hnil Happ Hturn n. induction n as [|n IH]; intros body w.
  - exists []. simpl. by rewrite app_nil_r.
  - destruct (Hturn body w) as (l1 & Ht1 & HP1).
    simpl. unfold bind.
    destruct (iteration sqs_New json_Decode processor body w)
      as [b1 w1|w1]; simpl in Ht1.
    + destruct (IH b1 w1) as (l2 & Ht2 & HP2).
      exists (l1 ++ l2). split; [|by apply Happ].
      by rewrite Ht2, Ht1, app_assoc.
    + exists l1. by split.
Qed.

Lemma count_app (f : Event → bool) (l1 l2 : list Event) :
  count f (l1 ++ l2) = (count f l1 + count f l2)%nat.
Proof. unfold count. by rewrite filter_app, length_app. Qed.

(** X14: however far the loop runs, and also when it panics, the
    only calls it makes to the service are receive requests with the
    parameters of [ReceiveMessage] at the URL of the processor's queue
    and delete requests at that URL; it never creates a queue, looks up
    attributes or sends. *)
Theorem Process_own_queue (processor : Processor Env Value)
        (body : Value) (w : World Env) (n : nat) :
  ∃ l,
    trace (world_of (Process sqs_New json_Decode n processor body w))
    = trace w ++ l
    ∧ Forall (is_turn_event (Processor_Queue processor)) l.
Proof.
  unfold Process, bind, log.
  match goal with
  | |- context [loop _ _ n processor body ?w1] =>
    destruct (loop_events
                (Forall (is_turn_event (Processor_Queue processor)))
                processor)
      with (n := n) (body := body) (w := w1) as (l & Ht & HP)
  end.
  - constructor.
  - intros l1 l2 H1 H2. apply Forall_app. by split.
  - intros body0 w0.
    turn_cases processor body0 w0 H; rewrite H; cbn [world_of trace];
      first [ eexists [_]; split; [reflexivity|]
            | eexists [_; _]; split; [reflexivity|]
            | eexists [_; _; _]; split; [reflexivity|]
            | eexists [_; _; _; _]; split; [reflexivity|] ];
      by repeat constructor.
  - by exists l.
Qed.

(** X15: over a whole run of the loop, there are at most as many
    delete requests as handler successes, as many handler successes as
    decoded bodies, as many decoded bodies as successful receives, and
    as many successful receives as polls; when the messages delivered
    are complete, every handler success has its delete request. *)
Theorem Process_funnel (processor : Processor Env Value)
        (body : Value) (w : World Env) (n : nat) :
  ∃ l,
    trace (world_of (Process sqs_New json_Decode n processor body w))
    = trace w ++ l
    ∧ (count is_delete l <= count is_handled l <= count is_decoded l)%nat
    ∧ (count is_decoded l <= count is_received l <= polls l)%nat
    ∧ (delivers_complete client →
       count is_delete l = count is_handled l).
Proof.
  unfold Process, bind, log.
  match goal with
  | |- context [loop _ _ n processor body ?w1] =>
    destruct (loop_events
                (λ l, (count is_delete l <= count is_handled l)%nat
                      ∧ (count is_handled l <= count is_decoded l)%nat
                      ∧ (count is_decoded l <= count is_received l)%nat
                      ∧ (count is_received l <= polls l)%nat
                      ∧ (delivers_complete client →
                         count is_delete l = count is_handled l))
                processor)
      with (n := n) (body := body) (w := w1) as (l & Ht & HP)
  end.
  - unfold count, polls. simpl. repeat split; lia.
  - intros l1 l2 H1 H2. rewrite !count_app, polls_app.
    repeat split; try lia.
    intros Hc. destruct H1 as (_ & _ & _ & _ & H1).
    destruct H2 as (_ & _ & _ & _ & H2). rewrite (H1 Hc), (H2 Hc). lia.
  - intros body0 w0.
    turn_cases processor body0 w0 H; rewrite H; cbn [world_of trace];
      first [ eexists [_]; split; [reflexivity|]
            | eexists [_; _]; split; [reflexivity|]
            | eexists [_; _; _]; split; [reflexivity|]
            | eexists [_; _; _; _]; split; [reflexivity|] ];
      unfold count, polls; simpl; repeat split; try lia.
    intros Hc. exfalso.
    pose proof (Hc (receiveParams (Processor_Queue processor)) (env w0) m)
      as Hcomplete.
    rewrite ER in Hcomplete.
    destruct (Hcomplete (first_message_delivered _ _ Hm))
      as (_ & [handle Hhandle] & _).
    congruence.
  - exists l. split; [exact Ht|]. repeat split; try lia. tauto.
Qed.

End Turns.

(** * The region *)

Section Region.

Context {Env Value : Type}.
Variables sqs_New sqs_New' : aws.Config -> sqs.SQS Env.
Variable json_Marshal : Value -> string * option error.
Variable json_Decode : string -> Value -> Value * option error.

(** X16: the package uses the client of the region "eu-central-1"
    and no other: two sessions that agree on the client of that region
    give the same runs of [Init], [SendMessage] and [Process] (and so of
    the receive and delete calls the loop makes). *)
Theorem GetClient_fixed_region :
  sqs_New {| aws.Region := "eu-central-1" |}
  = sqs_New' {| aws.Region := "eu-central-1" |} →
  (∀ queue w, Init sqs_New queue w = Init sqs_New' queue w)
  ∧ (∀ queue payload w,
       SendMessage sqs_New json_Marshal queue payload w
       = SendMessage sqs_New' json_Marshal queue payload w)
  ∧ (∀ n processor body w,
       Process sqs_New json_Decode n processor body w
       = Process sqs_New' json_Decode n processor body w).
Proof.
  intros Hc. change "eu-central-1" with sqsRegion in Hc.
  split; [|split].
  - intros queue w. unfold Init, GetAttributesByQueueURL, GetClient.
    by rewrite Hc.
  - intros queue payload w. unfold SendMessage, GetClient. by rewrite Hc.
  - assert (Hturn : ∀ processor body w,
              iteration sqs_New json_Decode processor body w
              = iteration sqs_New' json_Decode processor body w).
    { intros processor body w.
      unfold iteration, ReceiveMessage, DeleteMessage,
        DeleteMessageByReceiptHandle, GetClient.
      by rewrite Hc. }
    intros n processor body w. unfold Process, bind, log.
    generalize ({| env := env w; trace := trace w;
                   logs := logs w ++
                     [{| level := InfoLevel;
                         text := "Processing queue started" |}] |}).
    revert body. induction n as [|n IH]; intros body w1; [reflexivity|].
    simpl. unfold bind. rewrite Hturn.
    destruct (iteration sqs_New' json_Decode processor body w1);
      [apply IH|reflexivity].
Qed.

End Region.

(** * Further properties of the policy string *)



Lemma wf_seq_RuneError :
  wf_seq (utf8.EncodeRune utf8.RuneError) utf8.RuneError.
Proof.
  exact (wf_seq3 (utf8.chr 0xEF) (utf8.chr 0xBF) (utf8.chr 0xBD)
           ltac:(vm_compute; split; discriminate)
           ltac:(vm_compute; split; discriminate)
           ltac:(vm_compute; discriminate)
           ltac:(vm_compute; discriminate)
           ltac:(vm_compute; split; discriminate)).
Qed.

(** What the encoder writes for a byte that starts no well-formed
    sequence. *)
Lemma encodeString_loop_invalid (c : ascii) (t : string) :
  0x80 <= utf8.byte c ->
  utf8.DecodeRuneInString (String c t) = (utf8.RuneError, 1%nat) ->
  json.encodeString_loop (String c t)
  = String json.backslash "ufffd" +:+ json.encodeString_loop t.
Proof.
  intros Hge Hinv. cbn [json.encodeString_loop]. unfold utf8.RuneSelf.
  rewrite Hinv. destruct (Z.ltb_spec (utf8.byte c) 128); [lia|].
  reflexivity.
Qed.

Lemma unquote_replacement (t : string) :
  json.unquote (String json.backslash "ufffd" +:+ t)
  = option_map (String.append (utf8.EncodeRune utf8.RuneError))
               (json.unquote t).
Proof. reflexivity. Qed.

(** Unquoting the text written for any string gives a valid string. *)
Lemma unquote_encodeString_loop_valid (s : string) :
  exists s', json.unquote (json.encodeString_loop s) = Some s'
             /\ utf8.ValidString s' = true.
Proof.
  induction s as [s IH] using string_length_ind.
  destruct s as [|c t]; [by exists EmptyString|].
  destruct (Z.lt_ge_cases (utf8.byte c) 0x80) as [Hlt|Hge].
  - destruct (IH t) as (t' & Hu & Hv); [simpl; lia|].
    exists (String c t').
    rewrite encodeString_loop_ascii, unquote_ascii_chunk, Hu by done.
    split; [reflexivity|]. cbn [utf8.ValidString]. unfold utf8.RuneSelf.
    by destruct (Z.ltb_spec (utf8.byte c) 128); [|lia].
  - destruct (DecodeRune_view c t) as [Hinv|(p & r & t' & Hwf & Hs & Hd)];
      [lia| |].
    + destruct (IH t) as (t' & Hu & Hv); [simpl; lia|].
      exists (utf8.EncodeRune utf8.RuneError +:+ t').
      rewrite encodeString_loop_invalid, unquote_replacement, Hu by done.
      split; [reflexivity|].
      by rewrite ValidString_wf_seq with (r := utf8.RuneError)
        by apply wf_seq_RuneError.
    + destruct (IH t') as (t'' & Hu & Hv).
      { rewrite Hs, length_append.
        destruct (wf_seq_head _ _ Hwf) as (? & ? & ? & _ & _ & ? & _). lia. }
      exists (p +:+ t'').
      rewrite Hs, encodeString_loop_wf_seq with (r := r) by done.
      rewrite unquote_rune_chunk, Hu by done.
      split; [reflexivity|].
      by rewrite ValidString_wf_seq with (r := r).
Qed.

(** Decoding what [json.Marshal] writes for a policy, whatever its
    target. *)
Lemma Unmarshal_Marshal_target (p p0 : RedrivePolicy) (target : string) :
  int_range (MaxReceiveCount p) ->
  json.unquote (json.encodeString_loop (DeadLetterTargetArn p))
  = Some target ->
  json.Unmarshal_RedrivePolicy (json.Marshal_RedrivePolicy p).1 p0
  = Ok {| MaxReceiveCount := MaxReceiveCount p;
          DeadLetterTargetArn := target |}.
Proof.
  intros Hn Hu. destruct p as [n arn]. simpl in Hn, Hu.
  unfold json.Marshal_RedrivePolicy.
  cbn [fst MaxReceiveCount DeadLetterTargetArn].
  eval_closed (json.encodeString "maxReceiveCount").
  eval_closed (json.encodeString "deadLetterTargetArn").
  unfold json.encodeString.
  norm_append.
  unfold json.Unmarshal_RedrivePolicy.
  simpl.
  rewrite skipSpace_FormatInt, scanValue_FormatInt.
  simpl.
  rewrite (setField_count _ _ _ (ParseInt_FormatInt n Hn)).
  rewrite scanString_encodeString_loop, Hu.
  rewrite setField_arn. reflexivity.
Qed.

(** X17: for every policy whose count is a Go [int], whatever bytes
    its target holds, [GetAsAWSString] returns without error, log entry
    or call a string that decodes, whatever the destination held, to a
    policy with the same count and a target that is valid UTF-8; that
    target is the original one exactly when the original one is valid
    UTF-8. *)
Theorem GetAsAWSString_always_decodes {Env : Type}
        (policy : RedrivePolicy) (w : World Env) :
  int_range (MaxReceiveCount policy) ->
  exists policyString target,
    GetAsAWSString policy w = Done (Some policyString, None) w
    /\ (forall v,
          json.Unmarshal_RedrivePolicy policyString v
          = Ok {| MaxReceiveCount := MaxReceiveCount policy;
                  DeadLetterTargetArn := target |})
    /\ utf8.ValidString target = true
    /\ (target = DeadLetterTargetArn policy
        <-> utf8.ValidString (DeadLetterTargetArn policy) = true).
Proof.
  intros Hn.
  destruct (unquote_encodeString_loop_valid (DeadLetterTargetArn policy))
    as (target & Hu & Hv).
  exists (json.Marshal_RedrivePolicy policy).1, target.
  split; [reflexivity|]. split; [|split; [exact Hv|split]].
  - intros v. by apply Unmarshal_Marshal_target.
  - by intros <-.
  - intros Hvalid. rewrite unquote_encodeString_loop in Hu by done.
    by injection Hu.
Qed.

(** X18: on policies whose count is a Go [int] and whose target is
    valid UTF-8, [GetAsAWSString] is injective: policies with the same
    string are the same policy. *)
Theorem GetAsAWSString_injective {Env : Type} (p1 p2 : RedrivePolicy)
        (w : World Env) :
  int_range (MaxReceiveCount p1) -> int_range (MaxReceiveCount p2) ->
  utf8.ValidString (DeadLetterTargetArn p1) = true ->
  utf8.ValidString (DeadLetterTargetArn p2) = true ->
  GetAsAWSString p1 w = GetAsAWSString p2 w -> p1 = p2.
Proof.
  intros Hn1 Hn2 Hv1 Hv2 Heq.
  assert (Hs : (json.Marshal_RedrivePolicy p1).1
               = (json.Marshal_RedrivePolicy p2).1).
  { unfold GetAsAWSString, json.Marshal_RedrivePolicy, ret in Heq |- *.
    cbn [fst].
    exact (f_equal (fun r => match r with
                             | Done (Some str, _) _ => str
                             | _ => EmptyString
                             end) Heq). }
  pose proof (Unmarshal_Marshal p1 zero_policy Hn1 Hv1) as H1.
  pose proof (Unmarshal_Marshal p2 zero_policy Hn2 Hv2) as H2.
  rewrite Hs in H1. congruence.
Qed.

(** ** The bytes of the policy string *)

Lemma all_bytes_append (f : ascii -> bool) (s t : string) :
  all_bytes f (s +:+ t) = all_bytes f s && all_bytes f t.
Proof.
  induction s as [|c s IH]; [reflexivity|].
  rewrite append_cons. cbn [all_bytes]. by rewrite IH, andb_assoc.
Qed.

Lemma ValidString_ascii (s t : string) :
  all_bytes is_ascii s = true ->
  utf8.ValidString (s +:+ t) = utf8.ValidString t.
Proof.
  induction s as [|c s IH]; [reflexivity|].
  cbn [all_bytes]. intros [Hc Hs]%andb_true_iff.
  rewrite append_cons. cbn [utf8.ValidString].
  unfold is_ascii in Hc. rewrite Hc. by apply IH.
Qed.

Lemma ascii_chunk_bytes (c : ascii) :
  utf8.byte c < 0x80 ->
  all_bytes html_safe (ascii_chunk c) = true
  /\ all_bytes is_ascii (ascii_chunk c) = true.
Proof. intros H. all_ascii c H; split; reflexivity. Qed.

Lemma rune_chunk_bytes (p : string) (r : Z) (t : string) :
  wf_seq p r ->
  all_bytes html_safe (rune_chunk p r) = true
  /\ utf8.ValidString (rune_chunk p r +:+ t) = utf8.ValidString t.
Proof.
  intros Hwf. unfold rune_chunk.
  destruct (Z.eqb_spec r 0x2028) as [->|]; [by split|].
  destruct (Z.eqb_spec r 0x2029) as [->|]; [by split|].
  cbn [orb]. split; [|by apply ValidString_wf_seq with r].
  destruct Hwf as [c0 c1 H0 H1|c0 c1 c2 H0 H1 Hlo Hhi H2
                   |c0 c1 c2 c3 H0 H1 Hlo Hhi H2 H3];
    cbn [all_bytes]; unfold html_safe; lia.
Qed.

(** The text written by the encoder for any string. *)
Lemma encodeString_loop_bytes (s t : string) :
  all_bytes html_safe (json.encodeString_loop s) = true
  /\ utf8.ValidString (json.encodeString_loop s +:+ t)
     = utf8.ValidString t.
Proof.
  induction s as [s IH] using string_length_ind.
  destruct s as [|c u]; [by split|].
  destruct (Z.lt_ge_cases (utf8.byte c) 0x80) as [Hlt|Hge].
  - destruct (IH u) as [Hs Hv]; [simpl; lia|].
    destruct (ascii_chunk_bytes c Hlt) as [Hcs Hca].
    rewrite encodeString_loop_ascii, all_bytes_append, append_assoc by done.
    rewrite Hcs, Hs, ValidString_ascii by done. by split.
  - destruct (DecodeRune_view c u) as [Hinv|(p & r & u' & Hwf & Hs & Hd)];
      [lia| |].
    + destruct (IH u) as [Hs Hv]; [simpl; lia|].
      rewrite encodeString_loop_invalid, all_bytes_append, append_assoc
        by done.
      rewrite Hs, ValidString_ascii by done. by split.
    + destruct (IH u') as [Hs' Hv].
      { rewrite Hs, length_append.
        destruct (wf_seq_head _ _ Hwf) as (? & ? & ? & _ & _ & ? & _). lia. }
      destruct (rune_chunk_bytes p r (json.encodeString_loop u' +:+ t) Hwf)
        as [Hcs Hcv].
      rewrite Hs, encodeString_loop_wf_seq with (r := r) by done.
      rewrite all_bytes_append, append_assoc, Hcs, Hs', Hcv. by split.
Qed.

Lemma allDigits_bytes (s : string) :
  strconv.allDigits s = true ->
  all_bytes html_safe s = true /\ all_bytes is_ascii s = true.
Proof.
  induction s as [|c s IH]; [by split|].
  cbn [strconv.allDigits all_bytes]. intros [Hc Hs]%andb_true_iff.
  destruct (IH Hs) as [-> ->]. apply isDigit_byte in Hc.
  unfold html_safe, is_ascii, utf8.RuneSelf. split; lia.
Qed.

Lemma FormatInt_bytes (n : Z) :
  all_bytes html_safe (strconv.FormatInt n) = true
  /\ all_bytes is_ascii (strconv.FormatInt n) = true.
Proof.
  destruct (FormatInt_shape n)
    as (sign & c & more & -> & Hs & Hd & Ha & _ & _).
  assert (Hall : strconv.allDigits (String c more) = true).
  { cbn [strconv.allDigits]. by rewrite Hd, Ha. }
  destruct (allDigits_bytes _ Hall) as [H1 H2].
  rewrite !all_bytes_append, H1, H2. by destruct Hs as [-> | ->].
Qed.

(** X19: for every policy, the string [GetAsAWSString] returns is
    valid UTF-8 and holds no control character and none of the
    characters [<], [>] and [&]. *)
Theorem GetAsAWSString_text {Env : Type} (policy : RedrivePolicy)
        (w : World Env) :
  exists policyString,
    GetAsAWSString policy w = Done (Some policyString, None) w
    /\ all_bytes html_safe policyString = true
    /\ utf8.ValidString policyString = true.
Proof.
  exists (json.Marshal_RedrivePolicy policy).1.
  split; [reflexivity|].
  destruct policy as [n arn]. unfold json.Marshal_RedrivePolicy.
  cbn [fst MaxReceiveCount DeadLetterTargetArn].
  eval_closed (json.encodeString "maxReceiveCount").
  eval_closed (json.encodeString "deadLetterTargetArn").
  unfold json.encodeString.
  destruct (FormatInt_bytes n) as [Hn1 Hn2].
  destruct (encodeString_loop_bytes arn (String json.dquote "}"))
    as [Ha1 Ha2].
  split.
  - rewrite !all_bytes_append. cbn [all_bytes].
    rewrite !all_bytes_append. by rewrite Hn1, Ha1.
  - repeat match goal with
           | |- context [utf8.ValidString (?a +:+ _)] =>
             lazymatch a with
             | strconv.FormatInt _ =>
               rewrite (ValidString_ascii a) by exact Hn2
             | String json.dquote (_ +:+ _) => fail
             | _ => rewrite (ValidString_ascii a) by reflexivity
             end
           end.
    rewrite append_cons, append_assoc, append_cons, append_nil.
    cbn [utf8.ValidString]. by rewrite Ha2.
Qed.

(** * Runs on the simulated service *)

Module SimRuns.

Lemma Sim_delivers_complete (c : aws.Config) :
  delivers_complete (Sim.client c).
Proof.
  intros i st m. simpl. unfold Sim.ReceiveMessage.
  destruct (Sim.script st) as [|[e| |id handle body] ds]; simpl;
    intros Hin; event_in Hin.
  injection Hin as ->. repeat split; eexists; reflexivity.
Qed.

Example Init_on_sim :
  ∃ w', Init Sim.client Sim.fresh (Sim.start [] [] 0) = Done (Sim.jobs, None) w'
        ∧ Sim.created (env w') = ["jobs-deadMessages"; "jobs"].
Proof. vm_compute. eexists. split; reflexivity. Qed.

Example Init_primary_refused :
  ∃ w', Init Sim.client Sim.fresh (Sim.start ["jobs"] [] 0)
        = Done ({| Name := "jobs"; URL := "";
                   DeadLetterQueueURL := "https://sqs/jobs-deadMessages" |},
                Some "AccessDenied") w'
        ∧ Sim.created (env w') = ["jobs-deadMessages"].
Proof. vm_compute. eexists. split; reflexivity. Qed.

(** The six turns of [Sim.mixed] all end; only the message handled with
    success is deleted. *)
Example Process_mixed :
  ∃ body' w',
    Process Sim.client Sim.Decode 6 (Sim.processor Sim.jobs) "" Sim.mixed
    = Done body' w'
    ∧ Sim.deleted (env w') = ["h2'"]
    ∧ polls (trace w') = 6%nat
    ∧ filter (λ ev, negb (is_poll ev)) (trace w')
      = [EvDecode "junk" (Some "invalid character");
         EvDecode "{a}" None; EvHandle (Some "handler failed");
         EvDecode "{a}" None; EvHandle None;
         EvDeleteMessage (deleteParams Sim.jobs "h2'")
                         sqs.Build_DeleteMessageOutput None;
         EvDecode "{b}" None; EvHandle None;
         EvDeleteMessage (deleteParams Sim.jobs "stale")
                         sqs.Build_DeleteMessageOutput
                         (Some "ReceiptHandleIsInvalid")].
Proof. vm_compute. eexists _, _. repeat split; reflexivity. Qed.

(** A handler that fails twice, then succeeds, on a message delivered
    three times: the message is deleted in the third turn only. *)
Example Process_at_least_once :
  ∃ body' w',
    Process Sim.client Sim.Decode 3 (Sim.processor Sim.jobs) ""
            (Sim.start [] [Sim.Deliver "1" "r1" "{a}";
                           Sim.Deliver "1" "r2" "{a}";
                           Sim.Deliver "1" "r3" "{a}"] 2)
    = Done body' w'
    ∧ Sim.deleted (env w') = ["r3"]
    ∧ filter (λ ev, negb (is_poll ev)) (trace w')
      = [EvDecode "{a}" None; EvHandle (Some "handler failed");
         EvDecode "{a}" None; EvHandle (Some "handler failed");
         EvDecode "{a}" None; EvHandle None;
         EvDeleteMessage (deleteParams Sim.jobs "r3")
                         sqs.Build_DeleteMessageOutput None].
Proof. vm_compute. eexists _, _. repeat split; reflexivity. Qed.




Lemma Init_dead_letter_queue_first_witness :
  ∃ w', Init Sim.client Sim.fresh Sim.refusing
        = Done (Sim.fresh, Some "AccessDenied") w'.
Proof.
  destruct (Init_dead_letter_queue_first Sim.client Sim.fresh Sim.refusing)
    as (_ & rest & _ & _ & H).
  exact (proj2 (H "AccessDenied" eq_refl)).
Defined.

Lemma New_dead_letter_failure_witness :
  (Sim.CreateQueue (deadLetterParams "jobs") (env Sim.refusing)).1.2
  = Some "AccessDenied"
  ∧ ∃ w', New Sim.client "jobs" Sim.refusing
          = Done (Some {| Name := "jobs"; URL := "";
                          DeadLetterQueueURL := "" |},
                  Some "AccessDenied") w'.
Proof.
  split; [reflexivity|].
  exact (proj2 (New_dead_letter_failure Sim.client "jobs" Sim.refusing
                                        "AccessDenied" eq_refl)).
Defined.

Lemma Init_redrive_policy_witness :
  Init Sim.client Sim.fresh (Sim.start [] [] 0) = Done (Sim.jobs, None) Sim.provisioned
  ∧ ∃ o1 durl o2 arn o3 url policyString,
      let policy := {| MaxReceiveCount := 5;
                       DeadLetterTargetArn := arn |} in
      trace Sim.provisioned = [] ++
        [EvCreateQueue (deadLetterParams "jobs") o1 None;
         EvGetQueueAttributes
           {| sqs.GetQueueAttributes_QueueUrl := durl;
              sqs.AttributeNames := [Some "QueueArn"] |} o2 None;
         EvCreateQueue
           {| sqs.QueueName := "jobs";
              sqs.Attributes :=
                {[ "RedrivePolicy" := Some policyString;
                   "MessageRetentionPeriod" := Some "1209600" ]} |}
           o3 None]
      ∧ sqs.QueueUrl o1 = Some durl
      ∧ sqs.GetQueueAttributes_Attributes o2 !! "QueueArn"
        = Some (Some arn)
      ∧ (∀ w0 : World Sim.State,
           GetAsAWSString policy w0 = Done (Some policyString, None) w0)
      ∧ policyString = (json.Marshal_RedrivePolicy policy).1
      ∧ sqs.QueueUrl o3 = Some url
      ∧ Sim.jobs = {| Name := "jobs"; URL := url;
                  DeadLetterQueueURL := durl |}.
Proof.
  assert (Hrun : Init Sim.client Sim.fresh (Sim.start [] [] 0)
                 = Done (Sim.jobs, None) Sim.provisioned)
    by (vm_compute; reflexivity).
  split; [exact Hrun|].
  exact (Init_redrive_policy Sim.client Sim.fresh Sim.jobs (Sim.start [] [] 0)
                             Sim.provisioned Hrun).
Defined.

Lemma SendMessage_outcomes_witness :
  (∃ w', SendMessage Sim.client Sim.Marshal Sim.jobs "" Sim.refusing
         = Done (None, Some "unsupported value") w'
         ∧ trace w' = [] ∧ env w' = env Sim.refusing)
  ∧ (∃ w', SendMessage Sim.client Sim.Marshal Sim.jobs "work" Sim.refusing
           = Done (Some {| sqs.SendMessage_MessageId := Some "m-1" |},
                   None) w'
           ∧ trace w'
             = [EvSendMessage
                  {| sqs.MessageBody := json.encodeString "work";
                     sqs.SendMessage_QueueUrl := "https://sqs/jobs" |}
                  {| sqs.SendMessage_MessageId := Some "m-1" |} None]
           ∧ env w' = env Sim.refusing).
Proof.
  split.
  - exact (proj1 (SendMessage_outcomes Sim.client Sim.Marshal Sim.jobs ""
                                       Sim.refusing)
                 "unsupported value" eq_refl).
  - exact (proj2 (SendMessage_outcomes Sim.client Sim.Marshal Sim.jobs "work"
                                       Sim.refusing) eq_refl).
Defined.

Lemma ReceiveMessage_no_message_witness :
  (∃ w', ReceiveMessage Sim.client Sim.jobs Sim.idle = Done (None, None) w')
  ∧ ∃ w', iteration Sim.client Sim.Decode (Sim.processor Sim.jobs) "" Sim.idle
          = Done "" w'
          ∧ trace w' = [EvReceiveMessage (receiveParams Sim.jobs)
                                         {| sqs.Messages := [] |} None].
Proof.
  exact (proj2 (ReceiveMessage_no_message Sim.client Sim.Decode
                                          (Sim.processor Sim.jobs) "" Sim.idle)
               eq_refl eq_refl).
Defined.

Lemma DeleteMessage_receipt_handle_witness :
  ∃ w', DeleteMessage Sim.client Sim.jobs (Some (Sim.message "1" "h1" "{a}")) Sim.idle
        = Done (Some sqs.Build_DeleteMessageOutput, None) w'
        ∧ trace w' = [EvDeleteMessage
                        {| sqs.DeleteMessage_QueueUrl := "https://sqs/jobs";
                           sqs.DeleteMessage_ReceiptHandle := "h1" |}
                        sqs.Build_DeleteMessageOutput None].
Proof.
  exact (proj1 (DeleteMessage_receipt_handle Sim.client Sim.jobs
                  (Sim.message "1" "h1" "{a}") "h1" Sim.idle eq_refl)).
Defined.




Lemma RedrivePolicy_round_trip_witness :
  exists policyString,
    GetAsAWSString example_policy Sim.idle
    = Done (Some policyString, None) Sim.idle
    /\ (forall v,
          json.Unmarshal_RedrivePolicy policyString v = Ok example_policy)
    /\ Contains policyString "maxReceiveCount"
    /\ Contains policyString "deadLetterTargetArn".
Proof.
  apply RedrivePolicy_round_trip; [|reflexivity].
  unfold int_range, strconv.minInt64, strconv.maxInt64. simpl. lia.
Defined.

(** The wire form of the example policy. *)
Example Marshal_example_policy :
  (json.Marshal_RedrivePolicy example_policy).1
  = "{" +:+ json.encodeString "maxReceiveCount" +:+ ":5,"
        +:+ json.encodeString "deadLetterTargetArn" +:+ ":"
        +:+ String json.dquote ("X" +:+ String json.dquote "}").
Proof. vm_compute. reflexivity. Qed.

(** The two-character escapes of 0x08 and 0x0C are read back as those
    bytes. *)
Example unquote_short_escapes :
  json.unquote (String json.backslash "b" +:+ String json.backslash "f")
  = Some (String (utf8.chr 0x08) (String (utf8.chr 0x0C) EmptyString)).
Proof. reflexivity. Qed.

(** A target that is not valid UTF-8 does not survive: [json.Marshal]
    writes the escape of U+FFFD for the byte 0xFF, as it does for the
    byte 0xFE, and decoding gives the encoding of U+FFFD. *)
Lemma RedrivePolicy_round_trip_invalid_utf8 :
  int_range (MaxReceiveCount invalid_policy)
  /\ exists policyString,
       GetAsAWSString invalid_policy Sim.idle
       = Done (Some policyString, None) Sim.idle
       /\ json.Unmarshal_RedrivePolicy policyString zero_policy
          = Ok replaced_policy
       /\ json.Unmarshal_RedrivePolicy policyString zero_policy
          <> Ok invalid_policy
       /\ GetAsAWSString invalid_policy' Sim.idle
          = Done (Some policyString, None) Sim.idle.
Proof.
  split.
  { unfold int_range, strconv.minInt64, strconv.maxInt64. simpl. lia. }
  exists (json.Marshal_RedrivePolicy invalid_policy).1.
  split; [reflexivity|]. split; [vm_compute; reflexivity|].
  split; [|vm_compute; reflexivity].
  intros H. vm_compute in H. discriminate H.
Qed.

End SimRuns.

(** * Further runs on the simulated services *)

Module FurtherRuns.

(** The primary queue is refused: the dead-letter queue stays, and the
    error is that of the last call. *)
Lemma Init_failure_keeps_dead_letter_queue_witness :
  ∃ l ev,
    trace (world_of (Init Sim.client Sim.fresh (Sim.start ["jobs"] [] 0)))
    = [] ++ l ++ [ev]
    ∧ event_error ev = Some "AccessDenied"
    ∧ Forall (λ ev, event_error ev = None) l.
Proof.
  assert (Hrun : Init Sim.client Sim.fresh (Sim.start ["jobs"] [] 0)
                 = Done ({| Name := "jobs"; URL := "";
                            DeadLetterQueueURL :=
                              "https://sqs/jobs-deadMessages" |},
                         Some "AccessDenied")
                        (world_of (Init Sim.client Sim.fresh
                                        (Sim.start ["jobs"] [] 0))))
    by (vm_compute; reflexivity).
  exact (proj2 (proj2 (proj2
           (Init_failure_keeps_dead_letter_queue Sim.client _ _ _ _ _
              Hrun)))).
Defined.

(** No "QueueArn" in the answer: [Init] panics. *)
Lemma Init_panic_condition_witness :
  panicked (Init Bare.client Sim.fresh Bare.start) = true.
Proof.
  exact (eq_trans (Init_panic_condition Bare.client Sim.fresh Bare.start) eq_refl).
Defined.

Lemma Init_logs_witness :
  ∃ ls,
    logs (world_of (Init Sim.client Sim.fresh Sim.refusing)) = [] ++ ls
    ∧ ∃ pre msg,
        ls = pre ++ [{| level := ErrorLevel; text := msg |}]
        ∧ Forall (λ entry, level entry = InfoLevel) pre.
Proof.
  assert (Hrun : Init Sim.client Sim.fresh Sim.refusing
                 = Done (Sim.fresh, Some "AccessDenied")
                        (world_of (Init Sim.client Sim.fresh Sim.refusing)))
    by (vm_compute; reflexivity).
  exact (Init_logs Sim.client _ _ _ _ _ Hrun).
Defined.

Lemma New_result_witness :
  ∃ queue,
    Some Sim.jobs = Some queue ∧ Name queue = "jobs"
    ∧ Init Sim.client Sim.fresh (Sim.start [] [] 0)
      = Done (queue, None) Sim.provisioned
    ∧ ∃ o1 i2 o2 i3 o3,
        trace Sim.provisioned = [] ++
          [EvCreateQueue (deadLetterParams "jobs") o1 None;
           EvGetQueueAttributes i2 o2 None; EvCreateQueue i3 o3 None]
        ∧ sqs.QueueUrl o1 = Some (DeadLetterQueueURL queue)
        ∧ sqs.QueueUrl o3 = Some (URL queue).
Proof.
  assert (Hrun : New Sim.client "jobs" (Sim.start [] [] 0)
                 = Done (Some Sim.jobs, None) Sim.provisioned)
    by (vm_compute; reflexivity).
  exact (New_result Sim.client _ _ _ _ _ Hrun).
Defined.

Lemma iteration_without_message_witness :
  ∃ w',
    iteration Sim.client Sim.Decode (Sim.processor Sim.jobs) "" Sim.mixed
    = Done "" w'
    ∧ trace w' = [] ++ [EvReceiveMessage (receiveParams Sim.jobs)
                                         {| sqs.Messages := [] |}
                                         (Some "timeout")]
    ∧ Sim.script (env w') = tail (Sim.script (env Sim.mixed)).
Proof.
  destruct (iteration_without_message Sim.client Sim.Decode
              (Sim.processor Sim.jobs) "" Sim.mixed
              (or_introl (ex_intro _ "timeout" eq_refl)))
    as (w' & Hr & Ht & He).
  exists w'. split; [exact Hr|]. split; [exact Ht|]. by rewrite He.
Defined.

(** A decode failure is logged twice, by [UnmarshalMessageBody] and by
    [Process]. *)
Lemma iteration_logs_witness :
  ∃ l,
    trace (world_of (iteration Sim.client Sim.Decode
                               (Sim.processor Sim.jobs) ""
                               (Sim.one "junk"))) = [] ++ l
    ∧ logs (world_of (iteration Sim.client Sim.Decode
                                (Sim.processor Sim.jobs) ""
                                (Sim.one "junk")))
      = [] ++ {| level := InfoLevel; text := "Polling queue" |}
           :: flat_map event_logs l.
Proof.
  assert (Hrun : iteration Sim.client Sim.Decode (Sim.processor Sim.jobs)
                           "" (Sim.one "junk")
                 = Done ""
                     (world_of (iteration Sim.client Sim.Decode
                                  (Sim.processor Sim.jobs) ""
                                  (Sim.one "junk"))))
    by (vm_compute; reflexivity).
  exact (iteration_logs Sim.client Sim.Decode _ _ _ _ _ Hrun).
Defined.

(** A message without a receipt handle: the turn panics once the
    handler has succeeded. *)
Lemma iteration_panic_condition_witness :
  panicked (iteration Bare.client Sim.Decode
              {| Processor_Queue := Sim.jobs;
                 HandleMessageBody := λ _ v e, ((v, None), e) |}
              "" Bare.start) = true.
Proof.
  exact (eq_trans
           (iteration_panic_condition Bare.client Sim.Decode
              {| Processor_Queue := Sim.jobs;
                 HandleMessageBody := λ _ v e, ((v, None), e) |}
              "" Bare.start) eq_refl).
Defined.

Lemma iteration_delete_failure_witness :
  ∃ w',
    iteration Sim.client Sim.Decode (Sim.processor Sim.jobs) ""
              (Sim.start [] [Sim.Deliver "3" "stale" "{b}"] 0)
    = Done "{b}" w'
    ∧ Sim.deleted (env w') = []
    ∧ ∀ n, loop Sim.client Sim.Decode (S n) (Sim.processor Sim.jobs) ""
                (Sim.start [] [Sim.Deliver "3" "stale" "{b}"] 0)
           = loop Sim.client Sim.Decode n (Sim.processor Sim.jobs) "{b}" w'.
Proof.
  destruct (iteration_delete_failure Sim.client Sim.Decode
              (Sim.processor Sim.jobs) ""
              (Sim.start [] [Sim.Deliver "3" "stale" "{b}"] 0)
              (Sim.message "3" "stale" "{b}") "{b}" "stale"
              "ReceiptHandleIsInvalid"
              eq_refl eq_refl eq_refl eq_refl eq_refl eq_refl eq_refl)
    as (w' & Hr & He & _ & Hn).
  exists w'. split; [exact Hr|]. split; [by rewrite He|exact Hn].
Defined.

Lemma GetClient_fixed_region_witness :
  Init Sim.client Sim.fresh (Sim.start [] [] 0)
  = Init Regional.client Sim.fresh (Sim.start [] [] 0)
  ∧ Process Sim.client Sim.Decode 6 (Sim.processor Sim.jobs) "" Sim.mixed
    = Process Regional.client Sim.Decode 6 (Sim.processor Sim.jobs) ""
              Sim.mixed.
Proof.
  destruct (GetClient_fixed_region Sim.client Regional.client Sim.Marshal
              Sim.Decode eq_refl) as (HInit & _ & HProcess).
  split; [apply HInit|apply HProcess].
Defined.

Lemma GetAsAWSString_always_decodes_witness :
  exists policyString target,
    GetAsAWSString invalid_policy Sim.idle
    = Done (Some policyString, None) Sim.idle
    /\ (forall v,
          json.Unmarshal_RedrivePolicy policyString v
          = Ok {| MaxReceiveCount := 5; DeadLetterTargetArn := target |})
    /\ utf8.ValidString target = true
    /\ (target = DeadLetterTargetArn invalid_policy
        <-> utf8.ValidString (DeadLetterTargetArn invalid_policy) = true).
Proof.
  apply (GetAsAWSString_always_decodes invalid_policy Sim.idle).
  unfold int_range, strconv.minInt64, strconv.maxInt64. simpl. lia.
Defined.

Lemma GetAsAWSString_injective_witness :
  example_policy
  = {| MaxReceiveCount := 2 + 3; DeadLetterTargetArn := "" +:+ "X" |}.
Proof.
  apply (GetAsAWSString_injective _ _ Sim.idle);
    try reflexivity;
    unfold int_range, strconv.minInt64, strconv.maxInt64; simpl; lia.
Defined.

Lemma Process_funnel_witness :
  ∃ l,
    trace (world_of (Process Sim.client Sim.Decode 6
                             (Sim.processor Sim.jobs) "" Sim.mixed))
    = trace Sim.mixed ++ l
    ∧ count is_delete l = count is_handled l.
Proof.
  destruct (Process_funnel Sim.client Sim.Decode (Sim.processor Sim.jobs)
              "" Sim.mixed 6) as (l & Ht & _ & _ & Hc).
  exists l. split; [exact Ht|].
  exact (Hc (SimRuns.Sim_delivers_complete _)).
Defined.

(** [Init] on a queue that holds URLs already. *)
Lemma Init_reads_only_Name_witness :
  Init Sim.client Sim.jobs (Sim.start [] [] 0)
  = Done (Sim.jobs, None) Sim.provisioned.
Proof.
  apply (Init_reads_only_Name Sim.client Sim.fresh Sim.jobs
           (Sim.start [] [] 0) eq_refl).
  vm_compute. reflexivity.
Defined.

End FurtherRuns.
